(** * Listing queries of browse/services/database/listings.py

    A shallow embedding of the listing-query engine: category resolution
    over the taxonomy, the identifier-era filter, the monthly/yearly listing
    query with its item assembly, and the yearly count aggregation.

    The metadata store is modelled as three tables (lists of rows); a query
    is the list function it denotes.  Python exceptions are the [Raise]
    branch of [result].

    Conventions of the model:
    - Python ints and SQL integers are [Z]; strings are [string], a
      character standing for a code point below 256;
    - columns are not NULL; [=], [IN], [GROUP BY] and [DISTINCT] compare
      strings character by character, [LIKE] compares ASCII letters
      without case and has no escape character;
    - the order of rows that SQL leaves open (join order, order of groups,
      ties of [ORDER BY]) is fixed by the list functions below;
    - failures of the data layer are outside the model. *)

From Stdlib Require Import ZArith List Bool Ascii String Lia.
From Stdlib Require Import DecimalString Sorted Permutation OrderedTypeEx.
Import ListNotations.

Local Open Scope string_scope.
Local Open Scope Z_scope.

(** ** Exceptions *)

Inductive exn : Type :=
| BadRequest   (* werkzeug.exceptions.BadRequest *)
| IndexError   (* list index out of range *)
| ValueError   (* int() of a malformed literal, datetime() out of range *)
| OverflowError. (* datetime() of an int that does not fit a C int *)

Inductive result (A : Type) : Type :=
| Ok (a : A)
| Raise (e : exn).

Arguments Ok {A} a.
Arguments Raise {A} e.

Definition bind {A B : Type} (r : result A) (k : A -> result B) : result B :=
  match r with
  | Ok a => k a
  | Raise e => Raise e
  end.

Notation "x <- r ;; k" := (bind r (fun x => k))
  (at level 61, r at next level, right associativity).

(** ** Python and SQL string primitives *)

(** Characters for which [str.isspace] holds, among code points below 256. *)
Definition is_space (c : ascii) : bool :=
  let n := nat_of_ascii c in
  ((9 <=? n)%nat && (n <=? 13)%nat) || ((28 <=? n)%nat && (n <=? 32)%nat)
  || (n =? 133)%nat || (n =? 160)%nat.

Definition is_digit (c : ascii) : bool :=
  let n := nat_of_ascii c in (48 <=? n)%nat && (n <=? 57)%nat.

Definition digit_val (c : ascii) : Z := Z.of_nat (nat_of_ascii c) - 48.

Definition nonempty (s : string) : bool :=
  match s with
  | EmptyString => false
  | String _ _ => true
  end.

(** [str.split()] with no argument: the maximal runs of non-space
    characters.  [split_aux s] is the token that starts at the head of [s]
    (empty when [s] starts with a space) and the tokens after it. *)
Fixpoint split_aux (s : string) : string * list string :=
  match s with
  | EmptyString => (EmptyString, [])
  | String c s' =>
      let (tok, toks) := split_aux s' in
      if is_space c
      then (EmptyString, if nonempty tok then tok :: toks else toks)
      else (String c tok, toks)
  end.

Definition split (s : string) : list string :=
  let (tok, toks) := split_aux s in
  if nonempty tok then tok :: toks else toks.

(** [str(n)] for an int. *)
Definition str_of_int (n : Z) : string := NilZero.string_of_int (Z.to_int n).

(** The format spec [:02d]: the decimal numeral, sign included, zero-filled
    to width two. *)
Definition format_02d (n : Z) : string :=
  let s := str_of_int n in
  if (String.length s <? 2)%nat then String "0" s else s.

(** The white space [int] skips around a literal: the ASCII white space
    and, of the code points from 128, those for which [str.isspace] holds.
    The separators 28..31 are not skipped. *)
Definition is_int_space (c : ascii) : bool :=
  let n := nat_of_ascii c in
  ((9 <=? n)%nat && (n <=? 13)%nat) || (n =? 32)%nat
  || (n =? 133)%nat || (n =? 160)%nat.

(** [int(s)]: surrounding white space is stripped, then an optional sign
    and decimal digits, single underscores allowed between digits; a
    literal of more than 4300 digits is refused. *)
Fixpoint lstrip (l : list ascii) : list ascii :=
  match l with
  | c :: l' => if is_int_space c then lstrip l' else l
  | [] => []
  end.

Definition strip (l : list ascii) : list ascii :=
  rev (lstrip (rev (lstrip l))).

Definition max_str_digits : Z := 4300.

Fixpoint parse_digits (l : list ascii) (acc : Z) (after_digit : bool)
    (digits : Z) : option Z :=
  match l with
  | [] =>
      if after_digit && (digits <=? max_str_digits) then Some acc else None
  | c :: l' =>
      if is_digit c
      then parse_digits l' (10 * acc + digit_val c) true (digits + 1)
      else if (c =? "_")%char && after_digit then
        match l' with
        | [] => None
        | _ :: _ => parse_digits l' acc false digits
        end
      else None
  end.

Definition int_literal (s : string) : option Z :=
  match strip (list_ascii_of_string s) with
  | "-"%char :: l => option_map Z.opp (parse_digits l 0 false 0)
  | "+"%char :: l => parse_digits l 0 false 0
  | l => parse_digits l 0 false 0
  end.

Definition int (s : string) : result Z :=
  match int_literal s with
  | Some n => Ok n
  | None => Raise ValueError
  end.

(** The case folding of [LIKE]: the letters A..Z count as a..z. *)
Definition fold_case (c : ascii) : ascii :=
  let n := nat_of_ascii c in
  if (65 <=? n)%nat && (n <=? 90)%nat then ascii_of_nat (n + 32) else c.

(** SQL [LIKE]: [%] matches any run of characters, [_] any one character,
    any other character itself, ASCII letters without regard to case. *)
Fixpoint like (p s : string) : bool :=
  match p with
  | EmptyString => negb (nonempty s)
  | String c p' =>
      if (c =? "%")%char then
        (fix any (t : string) : bool :=
           like p' t ||
           match t with
           | EmptyString => false
           | String _ t' => any t'
           end) s
      else
        match s with
        | EmptyString => false
        | String d s' =>
            ((c =? "_")%char || (fold_case c =? fold_case d)%char)
            && like p' s'
        end
  end.

(** The column operators of the query layer, as they render to [LIKE]. *)
Definition startswith (col prefix : string) : bool := like (prefix ++ "%") col.
Definition contains (col infix : string) : bool :=
  like ("%" ++ infix ++ "%") col.

(** SQL [substr(s, pos, len)], [pos] counted from 1. *)
Definition substr (s : string) (pos len : nat) : string :=
  substring (pos - 1) len s.

Fixpoint has_char (d : ascii) (s : string) : bool :=
  match s with
  | EmptyString => false
  | String c s' => (c =? d)%char || has_char d s'
  end.

(** [substring_index(s, d, -1)]: what follows the last [d] in [s], all of
    [s] when [d] does not occur. *)
Fixpoint substring_index_last (s : string) (d : ascii) : string :=
  match s with
  | EmptyString => EmptyString
  | String c s' =>
      if has_char d s' then substring_index_last s' d
      else if (c =? d)%char then s' else s
  end.

(** Python truth value of an [Optional[int]] and of an [Optional[str]]. *)
Definition truthy_int (m : option Z) : bool :=
  match m with
  | Some n => negb (n =? 0)
  | None => false
  end.

Definition truthy_str (s : option string) : bool :=
  match s with
  | Some t => nonempty t
  | None => false
  end.

Definition mem (x : string) (l : list string) : bool :=
  existsb (String.eqb x) l.

(** ** The taxonomy (package arxiv.taxonomy)

    The four dictionaries the module reads.  A dictionary is the list of its
    items in iteration order; [ARCHIVES] keeps the keys only and
    [CATEGORIES] keeps, for each category, its ["in_archive"] entry. *)

Record Taxonomy : Type := {
  ARCHIVES : list string;
  CATEGORIES : list (string * string);
  CATEGORY_ALIASES : list (string * string);
  ARCHIVES_SUBSUMED : list (string * string)
}.

(** ** The metadata store (browse.services.database.models) *)

Module Document.
Record t : Type := mk {
  document_id : Z;
  paper_id : string
}.
End Document.

Module DocumentCategory.
Record t : Type := mk {
  document_id : Z;
  category : string;
  is_primary : Z
}.
End DocumentCategory.

Module Metadata.
Record t : Type := mk {
  document_id : Z;
  paper_id : string;
  version : Z;
  title : string;
  authors : string;
  abstract : string;
  abs_categories : string;
  comments : string;
  journal_ref : string;
  source_size : Z;
  source_flags : string;
  is_current : Z
}.
End Metadata.

Record Store : Type := {
  documents : list Document.t;
  document_categories : list DocumentCategory.t;
  metadata : list Metadata.t
}.

(** ** Domain objects (browse.domain, browse.services.listing) *)

Module Category.
Record t : Type := mk { id : string }.
End Category.

Module AuthorList.
Record t : Type := mk { raw : string }.
End AuthorList.

Module SourceFlag.
Record t : Type := mk { code : string }.
End SourceFlag.

Module VersionEntry.
Record t : Type := mk {
  version : Z;
  raw : string;
  submitted_date : option string;
  size_kilobytes : Z;
  source_flag : SourceFlag.t
}.
End VersionEntry.

Module DocMetadata.
Record t : Type := mk {
  arxiv_id : string;
  arxiv_id_v : string;
  title : string;
  authors : AuthorList.t;
  abstract : string;
  categories : string;
  primary_category : Category.t;
  secondary_categories : list Category.t;
  comments : string;
  journal_ref : string;
  version : Z;
  version_history : list VersionEntry.t;
  raw_safe : string;
  submitter : option string;
  arxiv_identifier : option string;
  primary_archive : option string;
  primary_group : option string;
  modified : option string
}.
End DocMetadata.

Module ListingItem.
Record t : Type := mk {
  id : string;
  listingType : string;
  primary : string;
  article : DocMetadata.t
}.
End ListingItem.

(** [datetime(year, month, day)] as the listing uses it (day is 1): the
    arguments are converted to C ints, then checked against the calendar. *)
Record datetime_t : Type := mk_datetime {
  dt_year : Z;
  dt_month : Z;
  dt_day : Z
}.

(** An int the constructor can take as a C int. *)
Definition fits_c_int (n : Z) : bool :=
  (- 2147483648 <=? n) && (n <=? 2147483647).

Definition datetime (year month day : Z) : result datetime_t :=
  if negb (fits_c_int year && fits_c_int month && fits_c_int day)
  then Raise OverflowError
  else if (1 <=? year) && (year <=? 9999) && (1 <=? month) && (month <=? 12)
  then Ok (mk_datetime year month day)
  else Raise ValueError.

Module Listing.
Record t : Type := mk {
  listings : list ListingItem.t;
  pubdates : list (datetime_t * Z);
  count : Z;
  expires : string
}.
End Listing.

Module MonthCount.
Record t : Type := mk {
  year : Z;
  month : Z;
  new : Z;
  cross : Z
}.
End MonthCount.

Module YearCount.
Record t : Type := mk {
  year : Z;
  new_count : Z;
  cross_count : Z;
  by_month : list MonthCount.t
}.
End YearCount.

(** ** Category resolution *)

(** The two loops of [_check_alternate_name]. *)
Fixpoint alias_loop (category : string) (items : list (string * string))
  : option string :=
  match items with
  | [] => None
  | (key, value) :: rest =>
      if (category =? key)%string then Some value
      else if (category =? value)%string then Some key
      else alias_loop category rest
  end.

Fixpoint subsumed_loop (category : string) (items : list (string * string))
  : option string :=
  match items with
  | [] => None
  | (key, value) :: rest =>
      if (category =? value)%string then Some key
      else subsumed_loop category rest
  end.

Definition _check_alternate_name (tx : Taxonomy) (category : string)
  : option string :=
  match alias_loop category (CATEGORY_ALIASES tx) with
  | Some name => Some name
  | None => subsumed_loop category (ARCHIVES_SUBSUMED tx)
  end.

Fixpoint archive_loop (tx : Taxonomy) (archive : string)
    (items : list (string * string)) : list string :=
  match items with
  | [] => []
  | (category, in_archive) :: rest =>
      if (in_archive =? archive)%string then
        let second_name := _check_alternate_name tx category in
        (category ::
           (if truthy_str second_name
            then match second_name with Some n => [n] | None => [] end
            else []))
        ++ archive_loop tx archive rest
      else archive_loop tx archive rest
  end.

Definition get_categories_from_archive (tx : Taxonomy) (archive : string)
  : list string :=
  archive_loop tx archive (CATEGORIES tx).

Definition _all_possible_categories (tx : Taxonomy) (archive_or_cat : string)
  : result (list string) :=
  if mem archive_or_cat (ARCHIVES tx) then
    Ok (get_categories_from_archive tx archive_or_cat)
  else if mem archive_or_cat (map fst (CATEGORIES tx)) then
    let second_name := _check_alternate_name tx archive_or_cat in
    if truthy_str second_name then
      match second_name with
      | Some n => Ok [archive_or_cat; n]
      | None => Ok [archive_or_cat]
      end
    else Ok [archive_or_cat]
  else Raise BadRequest.

(** ** The identifier-era filter *)

(** The filter put on [doc.paper_id] by the six branches of
    [get_articles_for_month]. *)
Definition era_filter (year : Z) (month : option Z) (paper_id : string)
  : bool :=
  if truthy_int month then
    match month with
    | Some month =>
        if year >? 2007 then
          startswith paper_id (format_02d (year mod 100) ++ format_02d month)
        else if year <? 2007 then
          like ("%/" ++ format_02d (year mod 100) ++ format_02d month ++ "%")
               paper_id
        else
          startswith paper_id (format_02d (year mod 100) ++ format_02d month)
          || like ("%/" ++ format_02d (year mod 100) ++ format_02d month
                        ++ "%") paper_id
    | None => false
    end
  else
    if year >? 2007 then
      startswith paper_id (format_02d (year mod 100))
    else if year <? 2007 then
      like ("%/" ++ format_02d (year mod 100) ++ "%") paper_id
    else
      startswith paper_id (format_02d (year mod 100))
      || like ("%/" ++ format_02d (year mod 100) ++ "%") paper_id.

Definition doc_ids (db : Store) (year : Z) (month : option Z) : list Z :=
  map Document.document_id
      (filter (fun d => era_filter year month (Document.paper_id d))
              (documents db)).

(** ** The listing query *)

Definition max_list (l : list Z) : Z :=
  match l with
  | [] => 0
  | x :: xs => fold_left Z.max xs x
  end.

(** [cat_query]: one row per document id among the selected associations,
    with the largest [is_primary] of its group. *)
Definition cat_rows (db : Store) (ids : list Z) (category_list : list string)
  : list DocumentCategory.t :=
  filter (fun dc => mem (DocumentCategory.category dc) category_list)
    (filter (fun dc => existsb (Z.eqb (DocumentCategory.document_id dc)) ids)
            (document_categories db)).

Definition cat_query (db : Store) (ids : list Z) (category_list : list string)
  : list (Z * Z) :=
  let rows := cat_rows db ids category_list in
  map (fun d =>
         (d, max_list
               (map DocumentCategory.is_primary
                    (filter (fun dc => DocumentCategory.document_id dc =? d)
                            rows))))
      (nodup Z.eq_dec (map DocumentCategory.document_id rows)).

(** [main_query]: the join with the metadata rows flagged current. *)
Definition main_query (db : Store) (ids : list Z) (category_list : list string)
  : list (Metadata.t * Z) :=
  flat_map
    (fun c : Z * Z =>
       map (fun meta => (meta, snd c))
           (filter (fun meta =>
                      (Metadata.document_id meta =? fst c)
                      && (Metadata.is_current meta =? 1))
                   (metadata db)))
    (cat_query db ids category_list).

(** [ORDER BY is_primary DESC, paper_id]: [le] is the order of the store's
    collation on paper ids. *)
Definition row_leb (le : string -> string -> bool) (r1 r2 : Metadata.t * Z)
  : bool :=
  (snd r2 <? snd r1)
  || ((snd r1 =? snd r2) && le (Metadata.paper_id (fst r1))
                               (Metadata.paper_id (fst r2))).

Fixpoint insert_row (le : string -> string -> bool) (r : Metadata.t * Z)
    (l : list (Metadata.t * Z)) : list (Metadata.t * Z) :=
  match l with
  | [] => [r]
  | r' :: l' =>
      if row_leb le r r' then r :: l else r' :: insert_row le r l'
  end.

Definition order_by (le : string -> string -> bool)
    (l : list (Metadata.t * Z)) : list (Metadata.t * Z) :=
  fold_right (insert_row le) [] l.

(** ** Listing item assembly *)

Definition first_token (s : string) : result string :=
  match split s with
  | tok :: _ => Ok tok
  | [] => Raise IndexError
  end.

Definition make_item (entry : Metadata.t * Z) : result ListingItem.t :=
  let (meta, primary) := entry in
  primary_category <- first_token (Metadata.abs_categories meta) ;;
  let doc :=
    DocMetadata.mk
      (Metadata.paper_id meta)
      (Metadata.paper_id meta ++ "v" ++ str_of_int (Metadata.version meta))
      (Metadata.title meta)
      (AuthorList.mk (Metadata.authors meta))
      (Metadata.abstract meta)
      (Metadata.abs_categories meta)
      (Category.mk primary_category)
      (map Category.mk (tl (split (Metadata.abs_categories meta))))
      (Metadata.comments meta)
      (Metadata.journal_ref meta)
      (Metadata.version meta)
      [VersionEntry.mk (Metadata.version meta) "" None
                       (Metadata.source_size meta)
                       (SourceFlag.mk (Metadata.source_flags meta))]
      "" None None None None None in
  Ok (ListingItem.mk
        (Metadata.paper_id meta)
        (if primary =? 1 then "new" else "cross")
        (Category.id (Category.mk primary_category))
        doc).

Fixpoint _entries_into_listing_items (query_result : list (Metadata.t * Z))
  : result (list ListingItem.t * list ListingItem.t) :=
  match query_result with
  | [] => Ok ([], [])
  | entry :: rest =>
      item <- make_item entry ;;
      acc <- _entries_into_listing_items rest ;;
      let (new_listings, cross_listings) := acc in
      if snd entry =? 1
      then Ok (item :: new_listings, cross_listings)
      else Ok (new_listings, item :: cross_listings)
  end.

(** [skip] and [show] are the offset and the limit of the page, natural
    numbers; [gen_expires] is the expiry stamp the listing service hands
    out. *)
Definition get_articles_for_month (tx : Taxonomy)
    (le : string -> string -> bool) (db : Store) (gen_expires : string)
    (archive_or_cat : string) (year : Z) (month : option Z)
    (skip show : nat) : result Listing.t :=
  category_list <- _all_possible_categories tx archive_or_cat ;;
  let ids := doc_ids db year month in
  let main := main_query db ids category_list in
  let rows := firstn show (skipn skip (order_by le main)) in
  let count := Z.of_nat (List.length main) in
  lists <- _entries_into_listing_items rows ;;
  let (new_listings, cross_listings) := lists in
  let month := if truthy_int month
               then match month with Some m => m | None => 1 end
               else 1 in
  date <- datetime year month 1 ;;
  Ok (Listing.mk (new_listings ++ cross_listings) [(date, 1)] count
                 gen_expires).

(** ** Yearly counts *)

(** A row of the grouped count query. *)
Module CountRow.
Record t : Type := mk {
  month : string;
  count_new : Z;
  count_cross : Z
}.
End CountRow.

(** The [CASE] expression classifying a metadata record. *)
Definition categorization_case (archive : string) (m : Metadata.t) : string :=
  if startswith (Metadata.abs_categories m) archive then "new"
  else if contains (Metadata.abs_categories m) (" " ++ archive) then "cross"
  else "no_match".

(** [count(distinct(case([(categorization_case == label, paper_id)],
    else_=None)))] over the rows of one group. *)
Definition count_distinct (archive label : string) (group : list Metadata.t)
  : Z :=
  Z.of_nat
    (List.length
       (nodup string_dec
          (map Metadata.paper_id
             (filter (fun m => (categorization_case archive m =? label)%string)
                     group)))).

(** [GROUP BY month]: one row per distinct value of the month expression. *)
Definition group_counts (archive : string) (month_of : Metadata.t -> string)
    (rows : list Metadata.t) : list CountRow.t :=
  map (fun k =>
         let group := filter (fun m => (month_of m =? k)%string) rows in
         CountRow.mk k (count_distinct archive "new" group)
                  (count_distinct archive "cross" group))
      (nodup string_dec (map month_of rows)).

Definition count_query_new_id (archive : string) (year : Z)
    (table : list Metadata.t) : list CountRow.t :=
  group_counts archive
    (fun m => substr (Metadata.paper_id m) 3 2)
    (filter (fun m => startswith (Metadata.paper_id m)
                                 (format_02d (year mod 100)))
            table).

Definition count_query_old_id (archive : string) (year : Z)
    (table : list Metadata.t) : list CountRow.t :=
  group_counts archive
    (fun m => substr (substring_index_last (Metadata.paper_id m) "/") 3 2)
    (filter (fun m => like ("%/" ++ format_02d (year mod 100) ++ "%")
                           (Metadata.paper_id m))
            table).

(** Python list indexing: negative indices count from the end. *)
Definition py_index {A : Type} (l : list A) (i : Z) : result nat :=
  let n := Z.of_nat (List.length l) in
  if (0 <=? i) && (i <? n) then Ok (Z.to_nat i)
  else if (- n <=? i) && (i <? 0) then Ok (Z.to_nat (i + n))
  else Raise IndexError.

Fixpoint update {A : Type} (l : list A) (i : nat) (f : A -> A) : list A :=
  match l, i with
  | [], _ => []
  | x :: l', O => f x :: l'
  | x :: l', S i' => x :: update l' i' f
  end.

Definition getitem {A : Type} (l : list A) (i : Z) : result A :=
  k <- py_index l i ;;
  match nth_error l k with
  | Some x => Ok x
  | None => Raise IndexError
  end.

Definition set_counts (entry : CountRow.t) (mc : MonthCount.t) : MonthCount.t :=
  MonthCount.mk (MonthCount.year mc) (MonthCount.month mc)
                (CountRow.count_new entry) (CountRow.count_cross entry).

(** The loop over the query result, on the state
    [(monthlist, new_total, cross_total)]. *)
Fixpoint process_loop (query_result : list CountRow.t)
    (st : list MonthCount.t * Z * Z) : result (list MonthCount.t * Z * Z) :=
  match query_result with
  | [] => Ok st
  | entry :: rest =>
      let '(monthlist, new_total, cross_total) := st in
      m <- int (CountRow.month entry) ;;
      let index := m - 1 in
      k <- py_index monthlist index ;;
      process_loop rest
        (update monthlist k (set_counts entry),
         new_total + CountRow.count_new entry,
         cross_total + CountRow.count_cross entry)
  end.

Definition months_1_12 : list Z := [1; 2; 3; 4; 5; 6; 7; 8; 9; 10; 11; 12].

Definition _process_yearly_article_counts (query_result : list CountRow.t)
    (year : Z) : result YearCount.t :=
  let monthlist := map (fun i => MonthCount.mk year i 0 0) months_1_12 in
  st <- process_loop query_result (monthlist, 0, 0) ;;
  let '(monthlist, new_total, cross_total) := st in
  Ok (YearCount.mk year new_total cross_total monthlist).

Fixpoint combine_loop (yc1 yc2 : YearCount.t) (range : list Z)
  : result (list MonthCount.t) :=
  match range with
  | [] => Ok []
  | i :: rest =>
      m1 <- getitem (YearCount.by_month yc1) (i - 1) ;;
      m2 <- getitem (YearCount.by_month yc2) (i - 1) ;;
      let new_month :=
        MonthCount.mk (YearCount.year yc1) i
                      (MonthCount.new m1 + MonthCount.new m2)
                      (MonthCount.cross m1 + MonthCount.cross m2) in
      months <- combine_loop yc1 yc2 rest ;;
      Ok (new_month :: months)
  end.

Definition _combine_yearly_article_counts (yc1 yc2 : YearCount.t)
  : result YearCount.t :=
  let new_count := YearCount.new_count yc1 + YearCount.new_count yc2 in
  let cross_count := YearCount.cross_count yc1 + YearCount.cross_count yc2 in
  months <- combine_loop yc1 yc2 months_1_12 ;;
  Ok (YearCount.mk (YearCount.year yc1) new_count cross_count months).

Definition _get_yearly_article_counts_new_id (table : list Metadata.t)
    (archive : string) (year : Z) : result YearCount.t :=
  _process_yearly_article_counts (count_query_new_id archive year table) year.

Definition _get_yearly_article_counts_old_id (table : list Metadata.t)
    (archive : string) (year : Z) : result YearCount.t :=
  _process_yearly_article_counts (count_query_old_id archive year table) year.

(** The ["math"] archive is matched as ["math."]. *)
Definition canonical_archive (archive : string) : string :=
  if (archive =? "math")%string && negb (has_char "." archive)
  then archive ++ "."
  else archive.

Definition get_yearly_article_counts (table : list Metadata.t)
    (archive : string) (year : Z) : result YearCount.t :=
  let archive := canonical_archive archive in
  if year >? 2007 then
    _get_yearly_article_counts_new_id table archive year
  else if year =? 2007 then
    old_id_count <- _get_yearly_article_counts_old_id table archive year ;;
    new_id_count <- _get_yearly_article_counts_new_id table archive year ;;
    _combine_yearly_article_counts new_id_count old_id_count
  else
    _get_yearly_article_counts_old_id table archive year.

(** * Properties *)

(** ** Strings and [LIKE] patterns *)

Lemma append_assoc (a b c : string) : (a ++ b) ++ c = a ++ b ++ c.
Proof.
  induction a as [|x a IH]; simpl; [reflexivity | now rewrite IH].
Qed.

Definition is_letter (c : ascii) : bool :=
  let n := nat_of_ascii c in
  ((65 <=? n)%nat && (n <=? 90)%nat) || ((97 <=? n)%nat && (n <=? 122)%nat).

(** A literal: a pattern without wildcard characters and without letters,
    which [LIKE] matches character for character. *)
Fixpoint literal (p : string) : bool :=
  match p with
  | EmptyString => true
  | String c p' =>
      negb (c =? "%")%char && negb (c =? "_")%char && negb (is_letter c)
      && literal p'
  end.

(** Case folding tells a character that is no letter from every other
    character. *)
Lemma fold_case_rigid (c d : ascii) :
  is_letter c = false ->
  (fold_case c =? fold_case d)%char = (c =? d)%char.
Proof.
  assert (forallb
            (fun i =>
               forallb
                 (fun j =>
                    let c := ascii_of_nat i in
                    let d := ascii_of_nat j in
                    is_letter c
                    || Bool.eqb (fold_case c =? fold_case d)%char
                                (c =? d)%char)
                 (seq 0 256))
            (seq 0 256) = true) as Hall by (vm_compute; reflexivity).
  intros Hc. rewrite forallb_forall in Hall.
  specialize (Hall (nat_of_ascii c)). rewrite forallb_forall in Hall.
  specialize (Hall ltac:(apply in_seq; pose proof (nat_ascii_bounded c); lia)
                   (nat_of_ascii d)
                   ltac:(apply in_seq; pose proof (nat_ascii_bounded d); lia)).
  cbv zeta in Hall. rewrite !ascii_nat_embedding, Hc in Hall.
  now apply Bool.eqb_prop in Hall.
Qed.

Lemma literal_app (a b : string) :
  literal (a ++ b) = literal a && literal b.
Proof.
  induction a as [|x a IH]; simpl; [reflexivity|].
  rewrite IH. now rewrite !andb_assoc.
Qed.

Lemma like_any (p s : string) :
  like (String "%" p) s
  = like p s || match s with
                | EmptyString => false
                | String _ s' => like (String "%" p) s'
                end.
Proof. destruct s; reflexivity. Qed.

Lemma like_percent (s : string) : like "%" s = true.
Proof.
  induction s as [|c s IH]; [reflexivity|].
  rewrite like_any, IH. apply orb_true_r.
Qed.

Lemma like_literal_cons (c : ascii) (p s : string) :
  (c =? "%")%char = false -> (c =? "_")%char = false ->
  is_letter c = false ->
  like (String c p) s
  = match s with
    | EmptyString => false
    | String d s' => (c =? d)%char && like p s'
    end.
Proof.
  intros H1 H2 H3. simpl. rewrite H1, H2. destruct s as [|d s]; [reflexivity|].
  now rewrite (fold_case_rigid c d H3).
Qed.

(** A literal followed by [%] matches the strings that start with it. *)
Lemma like_prefix_iff (lit s : string) :
  literal lit = true ->
  like (lit ++ "%") s = true <-> exists rest, s = lit ++ rest.
Proof.
  revert s. induction lit as [|c lit IH]; intros s Hlit.
  - simpl append. rewrite like_percent. split; [|reflexivity].
    intros _. now exists s.
  - cbn [literal] in Hlit. apply andb_prop in Hlit as [Hc Hlit].
    apply andb_prop in Hc as [Hc Hl]. apply andb_prop in Hc as [Hp Hu].
    apply negb_true_iff in Hp, Hu, Hl.
    change (String c lit ++ "%") with (String c (lit ++ "%")).
    rewrite like_literal_cons by assumption.
    destruct s as [|d s].
    + split; [discriminate|]. intros [rest H]. discriminate.
    + rewrite andb_true_iff, Ascii.eqb_eq, (IH s Hlit). split.
      * intros [-> [rest ->]]. now exists rest.
      * intros [rest H]. simpl in H. injection H as -> ->.
        split; [reflexivity | now exists rest].
Qed.

(** A literal between two [%] matches the strings that contain it. *)
Lemma like_infix_iff (lit s : string) :
  literal lit = true ->
  like ("%" ++ lit ++ "%") s = true <-> exists a b, s = a ++ lit ++ b.
Proof.
  intros Hlit. change ("%" ++ lit ++ "%") with (String "%" (lit ++ "%")).
  induction s as [|d s IH].
  - rewrite like_any, orb_false_r, (like_prefix_iff lit _ Hlit). split.
    + intros [rest H]. now exists "", rest.
    + intros [a [b H]]. destruct a; [now exists b | discriminate].
  - rewrite like_any, orb_true_iff, (like_prefix_iff lit _ Hlit), IH. split.
    + intros [[rest H] | [a [b H]]].
      * now exists "", rest.
      * exists (String d a), b. simpl. now rewrite H.
    + intros [a [b H]]. destruct a as [|x a].
      * left. now exists b.
      * right. simpl in H. injection H as _ ->. now exists a, b.
Qed.

Lemma literal_uint (d : Decimal.uint) :
  literal (NilEmpty.string_of_uint d) = true.
Proof. induction d; simpl; auto. Qed.

Lemma literal_str_of_int (n : Z) : literal (str_of_int n) = true.
Proof.
  unfold str_of_int, NilZero.string_of_int, NilZero.string_of_uint.
  destruct (Z.to_int n) as [d|d]; destruct d; simpl;
    try reflexivity; apply literal_uint.
Qed.

Lemma literal_format_02d (n : Z) : literal (format_02d n) = true.
Proof.
  unfold format_02d. destruct (_ <? _)%nat; simpl;
    apply literal_str_of_int.
Qed.

(** ** The identifier-era filter (section 4.2) *)

(** The two rules in the words of the specification. *)
Definition new_format_match (token paper_id : string) : Prop :=
  exists rest, paper_id = token ++ rest.

Definition old_format_match (token paper_id : string) : Prop :=
  exists before rest, paper_id = before ++ "/" ++ token ++ rest.

(** [YYMM], or [YY] when the month is omitted. *)
Definition period_token (year : Z) (month : option Z) : string :=
  match month with
  | Some m => format_02d (year mod 100) ++ format_02d m
  | None => format_02d (year mod 100)
  end.

Lemma format_02d_width (n : Z) :
  0 <= n < 100 -> String.length (format_02d n) = 2%nat.
Proof.
  intros Hn.
  assert (forallb (fun k => (String.length (format_02d (Z.of_nat k)) =? 2)%nat)
                  (seq 0 100) = true) as Hall by (vm_compute; reflexivity).
  rewrite forallb_forall in Hall.
  specialize (Hall (Z.to_nat n)). rewrite Z2Nat.id in Hall by lia.
  apply Nat.eqb_eq, Hall, in_seq. lia.
Qed.

Lemma length_append (a b : string) :
  String.length (a ++ b) = (String.length a + String.length b)%nat.
Proof.
  induction a as [|c a IH]; simpl; [reflexivity | now rewrite IH].
Qed.

(** The token is two characters wide for a year, four for a year and a
    month of the calendar. *)
Lemma period_token_width (year : Z) (month : option Z) :
  match month with
  | Some m => 1 <= m <= 12
  | None => True
  end ->
  String.length (period_token year month)
  = match month with Some _ => 4%nat | None => 2%nat end.
Proof.
  assert (0 <= year mod 100 < 100) as Hy by (apply Z.mod_pos_bound; lia).
  destruct month as [m|]; simpl; intros Hm.
  - rewrite length_append, !format_02d_width by lia. reflexivity.
  - now apply format_02d_width.
Qed.

Lemma literal_period_token (year : Z) (month : option Z) :
  literal (period_token year month) = true.
Proof.
  destruct month; simpl; [rewrite literal_app|];
    now rewrite ?literal_format_02d.
Qed.

Lemma startswith_token_iff (year : Z) (month : option Z) (pid : string) :
  startswith pid (period_token year month) = true
  <-> new_format_match (period_token year month) pid.
Proof. apply like_prefix_iff, literal_period_token. Qed.

Lemma like_slash_token_iff (year : Z) (month : option Z) (pid : string) :
  like ("%/" ++ period_token year month ++ "%") pid = true
  <-> old_format_match (period_token year month) pid.
Proof.
  change ("%/" ++ period_token year month ++ "%")
    with ("%" ++ ("/" ++ period_token year month) ++ "%").
  rewrite like_infix_iff.
  - unfold old_format_match. split; intros [a [b H]]; exists a, b; exact H.
  - simpl. apply literal_period_token.
Qed.

Lemma era_filter_unfold (year : Z) (month : option Z) (pid : string) :
  month <> Some 0 ->
  era_filter year month pid
  = if year >? 2007 then startswith pid (period_token year month)
    else if year <? 2007
         then like ("%/" ++ period_token year month ++ "%") pid
         else startswith pid (period_token year month)
              || like ("%/" ++ period_token year month ++ "%") pid.
Proof.
  intros Hm. unfold era_filter, period_token. destruct month as [m|].
  - assert ((m =? 0) = false) as E by (apply Z.eqb_neq; congruence).
    simpl. rewrite E. simpl. now rewrite !append_assoc.
  - reflexivity.
Qed.

(** C2. For a month that is given (non-zero) or omitted, the era filter
    accepts exactly: in 2007 the identifiers that start with the period
    token [YYMM] (or [YY]) or contain it after a slash; after 2007 only the
    identifiers that start with it; before 2007 only those that contain it
    after a slash. *)
Theorem era_filter_boundary (year : Z) (month : option Z) (pid : string) :
  month <> Some 0 ->
  let token := period_token year month in
  (year = 2007 ->
     (era_filter year month pid = true
      <-> new_format_match token pid \/ old_format_match token pid)) /\
  (year > 2007 ->
     (era_filter year month pid = true <-> new_format_match token pid)) /\
  (year < 2007 ->
     (era_filter year month pid = true <-> old_format_match token pid)).
Proof.
  intros Hm token.
  pose proof (startswith_token_iff year month pid) as Hnew.
  pose proof (like_slash_token_iff year month pid) as Hold.
  pose proof (era_filter_unfold year month pid Hm) as E.
  fold token in Hnew, Hold, E.
  destruct (Z.gtb_spec year 2007) as [Hgt|Hgt];
    [|destruct (Z.ltb_spec year 2007) as [Hlt|Hlt]];
    rewrite E; (split; [|split]); intros Hy; try lia;
    rewrite ?orb_true_iff; tauto.
Qed.

Lemma era_filter_boundary_witness :
  Some 3 <> Some 0 /\
  (2007 = 2007 ->
     (era_filter 2007 (Some 3) "0703.0001" = true
      <-> new_format_match (period_token 2007 (Some 3)) "0703.0001"
          \/ old_format_match (period_token 2007 (Some 3)) "0703.0001")) /\
  (2007 > 2007 ->
     (era_filter 2007 (Some 3) "0703.0001" = true
      <-> new_format_match (period_token 2007 (Some 3)) "0703.0001")) /\
  (2007 < 2007 ->
     (era_filter 2007 (Some 3) "0703.0001" = true
      <-> old_format_match (period_token 2007 (Some 3)) "0703.0001")).
Proof.
  split; [discriminate|].
  apply (era_filter_boundary 2007 (Some 3) "0703.0001"). discriminate.
Defined.

(** The period token has the width the identifiers give it: two digits for
    the year, two more for a month of the calendar. *)
Lemma period_token_examples :
  period_token 2009 (Some 3) = "0903" /\ period_token 2007 None = "07"
  /\ period_token 1999 (Some 12) = "9912".
Proof. repeat split. Qed.

Lemma era_filter_examples :
  era_filter 2007 (Some 3) "0703.0001" = true
  /\ era_filter 2007 (Some 3) "math/0703012" = true
  /\ era_filter 2008 (Some 3) "0803.0001" = true
  /\ era_filter 2008 (Some 3) "math/0803012" = false
  /\ era_filter 2006 (Some 3) "math/0603012" = true
  /\ era_filter 2006 (Some 3) "0603.0001" = false.
Proof. repeat split. Qed.

(** ** The listing query, unfolded *)

(** The page of rows handed to the item assembly. *)
Definition page_rows (le : string -> string -> bool) (db : Store)
    (year : Z) (month : option Z) (skip show : nat)
    (category_list : list string) : list (Metadata.t * Z) :=
  firstn show
    (skipn skip
       (order_by le (main_query db (doc_ids db year month) category_list))).

(** The month shown in [pubdates]. *)
Definition display_month (month : option Z) : Z :=
  match month with
  | Some m => if m =? 0 then 1 else m
  | None => 1
  end.

Lemma get_articles_for_month_unfold tx le db gen_expires a year month
    skip show :
  get_articles_for_month tx le db gen_expires a year month skip show
  = (category_list <- _all_possible_categories tx a ;;
     lists <- _entries_into_listing_items
                (page_rows le db year month skip show category_list) ;;
     date <- datetime year (display_month month) 1 ;;
     Ok (Listing.mk
           (fst lists ++ snd lists) [(date, 1)]
           (Z.of_nat
              (List.length
                 (main_query db (doc_ids db year month) category_list)))
           gen_expires)).
Proof.
  unfold get_articles_for_month, page_rows.
  destruct (_all_possible_categories tx a) as [cats|e]; [|reflexivity].
  simpl. destruct (_entries_into_listing_items _) as [[news crosses]|e];
    [|reflexivity].
  simpl. destruct month as [m|]; [|reflexivity].
  simpl. destruct (m =? 0); reflexivity.
Qed.

Lemma datetime_inv (y m d : Z) (r : result datetime_t) :
  datetime y m d = r ->
  r = Ok (mk_datetime y m d) \/ r = Raise ValueError
  \/ r = Raise OverflowError.
Proof.
  unfold datetime. destruct (negb _); [intros <-; auto|].
  destruct (_ && _); intros <-; auto.
Qed.

(** C10. With [month = 0] the call is the yearly call: the era filter is the
    one built from the two-digit year alone, the whole result is that of the
    call without a month, and a returned listing is dated the first of
    January. *)
Theorem month_zero_is_yearly tx le db gen_expires a year skip show :
  (forall pid,
      era_filter year (Some 0) pid = era_filter year None pid
      /\ era_filter year (Some 0) pid
         = if year >? 2007
           then startswith pid (format_02d (year mod 100))
           else if year <? 2007
                then like ("%/" ++ format_02d (year mod 100) ++ "%") pid
                else startswith pid (format_02d (year mod 100))
                     || like ("%/" ++ format_02d (year mod 100) ++ "%") pid)
  /\ get_articles_for_month tx le db gen_expires a year (Some 0) skip show
     = get_articles_for_month tx le db gen_expires a year None skip show
  /\ match get_articles_for_month tx le db gen_expires a year (Some 0)
                                  skip show with
     | Ok listing =>
         Listing.pubdates listing = [(mk_datetime year 1 1, 1)]
     | Raise _ => True
     end.
Proof.
  split; [|split].
  - intros pid. split; reflexivity.
  - rewrite !get_articles_for_month_unfold. reflexivity.
  - rewrite get_articles_for_month_unfold.
    destruct (_all_possible_categories tx a) as [cats|e]; [|exact I].
    simpl. destruct (_entries_into_listing_items _) as [lists|e]; [|exact I].
    simpl. destruct (datetime_inv year 1 1 _ eq_refl) as [E|[E|E]];
      rewrite E; simpl; [reflexivity | exact I | exact I].
Qed.

(** ** Category resolution and its error (section 4.1) *)

Definition known_token (tx : Taxonomy) (token : string) : Prop :=
  In token (ARCHIVES tx) \/ In token (map fst (CATEGORIES tx)).

Lemma mem_In (x : string) (l : list string) : mem x l = true <-> In x l.
Proof.
  unfold mem. rewrite existsb_exists. split.
  - intros [y [Hy E]]. apply String.eqb_eq in E. now subst.
  - intros H. exists x. split; [assumption | apply String.eqb_refl].
Qed.

Lemma mem_false (x : string) (l : list string) :
  mem x l = false <-> ~ In x l.
Proof.
  rewrite <- mem_In. destruct (mem x l); split; congruence.
Qed.

Lemma resolution_cases (tx : Taxonomy) (token : string) :
  (known_token tx token /\
   exists l, _all_possible_categories tx token = Ok l)
  \/ (~ known_token tx token /\
      _all_possible_categories tx token = Raise BadRequest).
Proof.
  unfold _all_possible_categories, known_token.
  destruct (mem token (ARCHIVES tx)) eqn:Ea.
  - left. split; [left; now apply mem_In | eauto].
  - destruct (mem token (map fst (CATEGORIES tx))) eqn:Ec.
    + left. split; [right; now apply mem_In|].
      destruct (_check_alternate_name tx token) as [n|]; simpl;
        [destruct (nonempty n)|]; eauto.
    + right. split; [|reflexivity].
      apply mem_false in Ea, Ec. tauto.
Qed.

Lemma make_item_raises (entry : Metadata.t * Z) (e : exn) :
  make_item entry = Raise e -> e = IndexError.
Proof.
  destruct entry as [meta primary]. unfold make_item, first_token.
  destruct (split _); simpl; congruence.
Qed.

Lemma entries_raise (rows : list (Metadata.t * Z)) (e : exn) :
  _entries_into_listing_items rows = Raise e -> e = IndexError.
Proof.
  induction rows as [|entry rows IH]; simpl; [discriminate|].
  destruct (make_item entry) as [item|e'] eqn:Ei; simpl.
  - destruct (_entries_into_listing_items rows) as [[n c]|e'']; simpl.
    + destruct (snd entry =? 1); discriminate.
    + intros [= <-]. now apply IH.
  - intros [= <-]. now apply make_item_raises in Ei.
Qed.

(** C7. Resolution raises [BadRequest] exactly for the tokens that are
    neither an archive nor a category, and returns a list for every other
    token; the listing query raises [BadRequest] for exactly the same
    tokens. *)
Theorem unknown_token_is_bad_request (tx : Taxonomy) (token : string) :
  (_all_possible_categories tx token = Raise BadRequest
   <-> ~ known_token tx token)
  /\ ((exists l, _all_possible_categories tx token = Ok l)
      <-> known_token tx token)
  /\ (forall le db gen_expires year month skip show,
         get_articles_for_month tx le db gen_expires token year month
                                skip show = Raise BadRequest
         <-> ~ known_token tx token).
Proof.
  destruct (resolution_cases tx token) as [[Hk [l E]] | [Hk E]].
  - split; [|split].
    + rewrite E. split; [discriminate | tauto].
    + split; [tauto | eauto].
    + intros. split; [|tauto]. rewrite get_articles_for_month_unfold, E.
      simpl. intros H.
      destruct (_entries_into_listing_items _) as [lists|e] eqn:El; simpl in H.
      * destruct (datetime_inv year (display_month month) 1 _ eq_refl)
          as [Ed|[Ed|Ed]]; rewrite Ed in H; discriminate.
      * apply entries_raise in El. congruence.
  - split; [|split].
    + tauto.
    + rewrite E. split; [intros [l H]; discriminate | tauto].
    + intros. rewrite get_articles_for_month_unfold, E. simpl. tauto.
Qed.

(** ** Item assembly and category strings without a token (section 4.4) *)

Fixpoint all_space (s : string) : bool :=
  match s with
  | EmptyString => true
  | String c s' => is_space c && all_space s'
  end.

Lemma split_cons (c : ascii) (s : string) :
  split (String c s)
  = if is_space c then split s
    else String c (fst (split_aux s)) :: snd (split_aux s).
Proof.
  unfold split. simpl. destruct (split_aux s) as [tok toks].
  destruct (is_space c); reflexivity.
Qed.

(** A category string has no token exactly when it is blank. *)
Lemma split_nil_iff (s : string) : split s = [] <-> all_space s = true.
Proof.
  induction s as [|c s IH]; [simpl; tauto|].
  rewrite split_cons. simpl. destruct (is_space c); simpl.
  - exact IH.
  - split; discriminate.
Qed.

Definition tokenless (entry : Metadata.t * Z) : Prop :=
  split (Metadata.abs_categories (fst entry)) = [].

Lemma make_item_cases (entry : Metadata.t * Z) :
  (tokenless entry /\ make_item entry = Raise IndexError)
  \/ (~ tokenless entry /\ exists item, make_item entry = Ok item).
Proof.
  destruct entry as [meta primary]. unfold tokenless, make_item, first_token.
  simpl. destruct (split (Metadata.abs_categories meta)) as [|tok toks].
  - left. split; reflexivity.
  - right. split; [discriminate | simpl; eauto].
Qed.

Lemma entries_cases (rows : list (Metadata.t * Z)) :
  (Exists tokenless rows
   /\ _entries_into_listing_items rows = Raise IndexError)
  \/ (Forall (fun entry => ~ tokenless entry) rows
      /\ exists lists, _entries_into_listing_items rows = Ok lists).
Proof.
  induction rows as [|entry rows IH].
  - right. split; [constructor | simpl; eauto].
  - simpl. destruct (make_item_cases entry) as [[Ht E] | [Ht [item E]]];
      rewrite E; simpl.
    + left. split; [now constructor | reflexivity].
    + destruct IH as [[Hex E'] | [Hall [[news crosses] E']]];
        rewrite E'; simpl.
      * left. split; [now apply Exists_cons_tl | reflexivity].
      * right. split; [now constructor|].
        destruct (snd entry =? 1); eauto.
Qed.

Lemma Exists_not_Forall_not {A : Type} (P : A -> Prop) (l : list A) :
  Exists P l -> Forall (fun x => ~ P x) l -> False.
Proof.
  intros Hex Hall. rewrite Forall_forall in Hall.
  apply Exists_exists in Hex as [x [Hin Hx]]. exact (Hall x Hin Hx).
Qed.

(** C9. The assembly raises [IndexError] exactly when some row of its input
    has a category string without a token, and returns the two lists exactly
    when every row has one; the listing query raises [IndexError] exactly
    when the token resolves and the page of rows holds such a row. *)
Theorem tokenless_row_raises (rows : list (Metadata.t * Z)) :
  (_entries_into_listing_items rows = Raise IndexError
   <-> Exists tokenless rows)
  /\ ((exists lists, _entries_into_listing_items rows = Ok lists)
      <-> Forall (fun entry => ~ tokenless entry) rows)
  /\ (forall tx le db gen_expires a year month skip show,
         get_articles_for_month tx le db gen_expires a year month skip show
         = Raise IndexError
         <-> exists category_list,
               _all_possible_categories tx a = Ok category_list
               /\ Exists tokenless
                    (page_rows le db year month skip show category_list)).
Proof.
  split; [|split].
  - destruct (entries_cases rows) as [[H E] | [H [lists E]]]; rewrite E.
    + tauto.
    + split; [discriminate|].
      intros Hex. destruct (Exists_not_Forall_not _ _ Hex H).
  - destruct (entries_cases rows) as [[H E] | [H [lists E]]]; rewrite E.
    + split; [intros [l Hl]; discriminate|].
      intros Hall. destruct (Exists_not_Forall_not _ _ H Hall).
    + split; eauto.
  - intros. rewrite get_articles_for_month_unfold.
    destruct (resolution_cases tx a) as [[_ [cats E]] | [_ E]]; rewrite E.
    + simpl.
      destruct (entries_cases (page_rows le db year month skip show cats))
        as [[H E'] | [H [lists E']]]; rewrite E'; simpl.
      * split; [eauto | reflexivity].
      * split.
        -- destruct (datetime_inv year (display_month month) 1 _ eq_refl)
             as [Ed|[Ed|Ed]]; rewrite Ed; discriminate.
        -- intros [cats' [[= <-] Hex]].
           destruct (Exists_not_Forall_not _ _ Hex H).
    + simpl. split; [discriminate|].
      intros [cats [Hc _]]. discriminate.
Qed.

Lemma blank_categories_examples :
  split "" = [] /\ split "   " = [] /\ split "cs.AI  cs.LG" = ["cs.AI"; "cs.LG"]
  /\ first_token "" = Raise IndexError /\ first_token " cs.AI" = Ok "cs.AI".
Proof. repeat split. Qed.

(** ** Alias symmetry (section 4.1) *)

(** The names that occur in the alias dictionary, old names then new. *)
Definition alias_names (items : list (string * string)) : list string :=
  map fst items ++ map snd items.

Lemma alias_names_cons (k v : string) (items : list (string * string)) :
  NoDup (alias_names ((k, v) :: items)) ->
  k <> v /\ ~ In k (alias_names items) /\ ~ In v (alias_names items)
  /\ NoDup (alias_names items).
Proof.
  unfold alias_names. simpl. intros H.
  apply NoDup_cons_iff in H as [Hk H].
  pose proof (NoDup_remove_1 _ _ _ H) as Hnd.
  pose proof (NoDup_remove_2 _ _ _ H) as Hv.
  repeat split; try assumption.
  - intros ->. apply Hk, in_or_app. right. now left.
  - intros Hin. apply Hk. apply in_app_or in Hin as [Hin|Hin];
      apply in_or_app; [left | right; right]; assumption.
Qed.

Lemma In_alias_names (old new : string) (items : list (string * string)) :
  In (old, new) items ->
  In old (alias_names items) /\ In new (alias_names items).
Proof.
  intros H. unfold alias_names. split; apply in_or_app.
  - left. now apply (in_map fst) in H.
  - right. now apply (in_map snd) in H.
Qed.

(** When no name occurs twice in the dictionary, the loop swaps the two
    names of every pair. *)
Lemma alias_loop_swaps (items : list (string * string)) (old new : string) :
  NoDup (alias_names items) -> In (old, new) items ->
  alias_loop old items = Some new /\ alias_loop new items = Some old.
Proof.
  induction items as [|[k v] items IH]; intros Hnd Hin; [destruct Hin|].
  apply alias_names_cons in Hnd as [Hkv [Hk [Hv Hnd]]].
  simpl. destruct Hin as [[= -> ->] | Hin].
  - rewrite String.eqb_refl. split; [reflexivity|].
    apply not_eq_sym, String.eqb_neq in Hkv. now rewrite Hkv, String.eqb_refl.
  - destruct (In_alias_names _ _ _ Hin) as [Ho Hn].
    assert (old <> k /\ old <> v /\ new <> k /\ new <> v) as [H1 [H2 [H3 H4]]]
      by (repeat split; intros ->; tauto).
    apply String.eqb_neq in H1, H2, H3, H4. rewrite H1, H2, H3, H4.
    now apply IH.
Qed.

Definition second_names (tx : Taxonomy) (category : string) : list string :=
  if truthy_str (_check_alternate_name tx category)
  then match _check_alternate_name tx category with
       | Some n => [n]
       | None => []
       end
  else [].

Lemma archive_loop_cons tx archive c a items :
  archive_loop tx archive ((c, a) :: items)
  = if (a =? archive)%string
    then ((c :: second_names tx c) ++ archive_loop tx archive items)%list
    else archive_loop tx archive items.
Proof. reflexivity. Qed.

Lemma archive_loop_has tx archive items category :
  In (category, archive) items ->
  In category (archive_loop tx archive items)
  /\ forall name, _check_alternate_name tx category = Some name ->
                  name <> "" -> In name (archive_loop tx archive items).
Proof.
  induction items as [|[c a] items IH]; intros Hin; [destruct Hin|].
  rewrite archive_loop_cons. destruct Hin as [[= -> ->] | Hin].
  - rewrite String.eqb_refl. split; [now left|].
    intros name E Hne. apply in_or_app. left. right.
    unfold second_names. rewrite E. destruct name; [congruence|].
    now left.
  - destruct (IH Hin) as [H1 H2].
    destruct (a =? archive)%string; [|split; auto].
    split; [|intros name E Hne]; apply in_or_app; right; auto.
Qed.

Section AliasSymmetry.

Variable tx : Taxonomy.

(** The shape of the taxonomy's alias dictionary: a name takes part in one
    pair only, the names are non-empty category identifiers, and a category
    that bears the name of an archive lies in that archive. *)
Hypothesis one_alias_per_name : NoDup (alias_names (CATEGORY_ALIASES tx)).
Hypothesis names_non_empty : ~ In "" (alias_names (CATEGORY_ALIASES tx)).
Hypothesis names_are_categories :
  forall name, In name (alias_names (CATEGORY_ALIASES tx)) ->
               In name (map fst (CATEGORIES tx)).
Hypothesis archive_named_category :
  forall name, In name (alias_names (CATEGORY_ALIASES tx)) ->
               In name (ARCHIVES tx) -> In (name, name) (CATEGORIES tx).

Lemma resolve_alias_name (name other : string) :
  In name (alias_names (CATEGORY_ALIASES tx)) ->
  alias_loop name (CATEGORY_ALIASES tx) = Some other -> other <> "" ->
  exists l, _all_possible_categories tx name = Ok l
            /\ In name l /\ In other l.
Proof.
  intros Hname Hloop Hne.
  assert (_check_alternate_name tx name = Some other) as Hcheck
    by (unfold _check_alternate_name; now rewrite Hloop).
  unfold _all_possible_categories.
  destruct (mem name (ARCHIVES tx)) eqn:Ea.
  - apply mem_In in Ea.
    pose proof (archive_named_category name Hname Ea) as Hcat.
    destruct (archive_loop_has tx name (CATEGORIES tx) name Hcat) as [H1 H2].
    eexists. split; [reflexivity|]. split; [exact H1|].
    now apply H2.
  - apply names_are_categories, mem_In in Hname. rewrite Hname, Hcheck.
    destruct other; [congruence|]. simpl.
    eexists. split; [reflexivity|]. simpl. auto.
Qed.

(** C8. For every pair of the alias dictionary, resolving the old name and
    resolving the new name each return a list that holds both names. *)
Theorem alias_resolution_symmetric (old new : string) :
  In (old, new) (CATEGORY_ALIASES tx) ->
  (exists l, _all_possible_categories tx old = Ok l
             /\ In old l /\ In new l)
  /\ (exists l, _all_possible_categories tx new = Ok l
                /\ In old l /\ In new l).
Proof.
  intros Hin.
  destruct (alias_loop_swaps _ _ _ one_alias_per_name Hin) as [Ho Hn].
  destruct (In_alias_names _ _ _ Hin) as [Hold Hnew].
  assert (old <> "" /\ new <> "") as [Hoe Hne]
    by (split; intros ->; now apply names_non_empty).
  split.
  - apply resolve_alias_name; assumption.
  - destruct (resolve_alias_name new old Hnew Hn Hoe) as [l [E [H1 H2]]].
    exists l. auto.
Qed.

End AliasSymmetry.

(** A taxonomy in the shape of the published one: [math-ph] is an archive,
    a category of that archive, and the new name of [math.MP]. *)
Definition sample_taxonomy : Taxonomy :=
  {| ARCHIVES := ["cs"; "math"; "math-ph"; "stat"];
     CATEGORIES := [("cs.AI", "cs"); ("cs.LG", "cs"); ("math.MP", "math");
                    ("math.ST", "math"); ("math-ph", "math-ph");
                    ("stat.TH", "stat")];
     CATEGORY_ALIASES := [("math.MP", "math-ph"); ("stat.TH", "math.ST")];
     ARCHIVES_SUBSUMED := [("alg-geom", "math.AG")] |}.

Lemma alias_resolution_symmetric_witness :
  (exists l, _all_possible_categories sample_taxonomy "math.MP" = Ok l
             /\ In "math.MP" l /\ In "math-ph" l)
  /\ (exists l, _all_possible_categories sample_taxonomy "math-ph" = Ok l
                /\ In "math.MP" l /\ In "math-ph" l).
Proof.
  apply (alias_resolution_symmetric sample_taxonomy).
  - repeat constructor; simpl; intuition discriminate.
  - simpl. intuition discriminate.
  - simpl. intuition (subst; auto 10).
  - simpl. intros name Hn Ha.
    intuition (subst; try discriminate; auto 10).
  - simpl. auto.
Defined.

(** ** The merge of two year counts (section 4.5) *)

Definition sum_new (months : list MonthCount.t) : Z :=
  fold_right Z.add 0 (map MonthCount.new months).

Definition sum_cross (months : list MonthCount.t) : Z :=
  fold_right Z.add 0 (map MonthCount.cross months).

(** A list with twelve entries or more, spelled out. *)
Lemma twelve_entries {A : Type} (l : list A) :
  (12 <= List.length l)%nat ->
  exists a1 a2 a3 a4 a5 a6 a7 a8 a9 a10 a11 a12 rest,
    l = a1 :: a2 :: a3 :: a4 :: a5 :: a6 :: a7 :: a8 :: a9 :: a10 :: a11
           :: a12 :: rest.
Proof.
  intros H.
  do 12 (destruct l as [|? l]; [simpl in H; lia|]).
  repeat eexists.
Qed.

Lemma getitem_nth {A : Type} (l : list A) (i : nat) (x : A) :
  nth_error l i = Some x -> getitem l (Z.of_nat i) = Ok x.
Proof.
  intros H. assert (i < List.length l)%nat as Hlt
    by (apply nth_error_Some; congruence).
  unfold getitem, py_index.
  assert ((0 <=? Z.of_nat i) && (Z.of_nat i <? Z.of_nat (List.length l))
          = true) as E
    by (apply andb_true_intro; split; [apply Z.leb_le | apply Z.ltb_lt]; lia).
  rewrite E. simpl. now rewrite Nat2Z.id, H.
Qed.

(** Reads [l[z - 1]] off a list whose first entries are spelled out. *)
Ltac read_getitem :=
  match goal with
  | |- context [getitem ?l (?z - 1)] =>
      let i := eval compute in (Z.to_nat (z - 1)) in
      let x := eval cbn in (nth_error l i) in
      match x with
      | Some ?a =>
          replace (getitem l (z - 1)) with (Ok a)
            by (symmetry; exact (getitem_nth l i a eq_refl))
      end
  end.

(** The month entry the merge builds at position [i] (counted from 0). *)
Definition merged_month (yc1 : YearCount.t) (i : nat) (m1 m2 : MonthCount.t)
  : MonthCount.t :=
  MonthCount.mk (YearCount.year yc1) (Z.of_nat i + 1)
                (MonthCount.new m1 + MonthCount.new m2)
                (MonthCount.cross m1 + MonthCount.cross m2).

Lemma combine_loop_twelve (yc1 yc2 : YearCount.t) :
  (12 <= List.length (YearCount.by_month yc1))%nat ->
  (12 <= List.length (YearCount.by_month yc2))%nat ->
  exists months,
    combine_loop yc1 yc2 months_1_12 = Ok months
    /\ List.length months = 12%nat
    /\ (forall i m1 m2,
           (i < 12)%nat ->
           nth_error (YearCount.by_month yc1) i = Some m1 ->
           nth_error (YearCount.by_month yc2) i = Some m2 ->
           nth_error months i = Some (merged_month yc1 i m1 m2))
    /\ sum_new months
       = sum_new (firstn 12 (YearCount.by_month yc1))
         + sum_new (firstn 12 (YearCount.by_month yc2))
    /\ sum_cross months
       = sum_cross (firstn 12 (YearCount.by_month yc1))
         + sum_cross (firstn 12 (YearCount.by_month yc2)).
Proof.
  intros H1 H2.
  destruct (twelve_entries _ H1)
    as (a1 & a2 & a3 & a4 & a5 & a6 & a7 & a8 & a9 & a10 & a11 & a12 & r1 & E1).
  destruct (twelve_entries _ H2)
    as (b1 & b2 & b3 & b4 & b5 & b6 & b7 & b8 & b9 & b10 & b11 & b12 & r2 & E2).
  unfold months_1_12. cbn [combine_loop]. rewrite E1, E2.
  repeat read_getitem. cbn [bind].
  eexists. split; [reflexivity|]. split; [reflexivity|]. split; [|split].
  - intros i m1 m2 Hi G1 G2.
    do 12 (destruct i as [|i];
           [cbn in G1, G2; injection G1 as <-; injection G2 as <-;
            reflexivity|]).
    lia.
  - unfold sum_new. cbn. lia.
  - unfold sum_cross. cbn. lia.
Qed.

(** C5. For two year counts of twelve months, the merge returns a year
    count labelled with the first operand's year, whose totals are the sums
    of the operands' totals and whose month [i] holds the sums of the
    operands' new and cross values for month [i]. *)
Theorem combine_is_pairwise_sum (yc1 yc2 : YearCount.t) :
  List.length (YearCount.by_month yc1) = 12%nat ->
  List.length (YearCount.by_month yc2) = 12%nat ->
  exists yc,
    _combine_yearly_article_counts yc1 yc2 = Ok yc
    /\ YearCount.year yc = YearCount.year yc1
    /\ YearCount.new_count yc
       = YearCount.new_count yc1 + YearCount.new_count yc2
    /\ YearCount.cross_count yc
       = YearCount.cross_count yc1 + YearCount.cross_count yc2
    /\ List.length (YearCount.by_month yc) = 12%nat
    /\ forall i m1 m2,
         nth_error (YearCount.by_month yc1) i = Some m1 ->
         nth_error (YearCount.by_month yc2) i = Some m2 ->
         exists m,
           nth_error (YearCount.by_month yc) i = Some m
           /\ MonthCount.new m = MonthCount.new m1 + MonthCount.new m2
           /\ MonthCount.cross m = MonthCount.cross m1 + MonthCount.cross m2
           /\ MonthCount.year m = YearCount.year yc1
           /\ MonthCount.month m = Z.of_nat i + 1.
Proof.
  intros H1 H2.
  destruct (combine_loop_twelve yc1 yc2) as [months [E [Hlen [Hnth _]]]];
    try lia.
  unfold _combine_yearly_article_counts. rewrite E. simpl.
  eexists. split; [reflexivity|]. simpl. repeat split; try assumption.
  intros i m1 m2 G1 G2.
  assert (i < 12)%nat as Hi
    by (rewrite <- H1; apply nth_error_Some; congruence).
  exists (merged_month yc1 i m1 m2). split; [now apply Hnth|].
  repeat split.
Qed.

Definition sample_months (year scale : Z) : list MonthCount.t :=
  map (fun i => MonthCount.mk year i (scale * i) (scale + i)) months_1_12.

Definition sample_yc1 : YearCount.t :=
  YearCount.mk 2007 78 90 (sample_months 2007 1).

Definition sample_yc2 : YearCount.t :=
  YearCount.mk 2007 156 102 (sample_months 2007 2).

Lemma combine_is_pairwise_sum_witness :
  List.length (YearCount.by_month sample_yc1) = 12%nat
  /\ List.length (YearCount.by_month sample_yc2) = 12%nat
  /\ exists yc,
       _combine_yearly_article_counts sample_yc1 sample_yc2 = Ok yc
       /\ YearCount.year yc = YearCount.year sample_yc1
       /\ YearCount.new_count yc
          = YearCount.new_count sample_yc1 + YearCount.new_count sample_yc2
       /\ YearCount.cross_count yc
          = YearCount.cross_count sample_yc1
            + YearCount.cross_count sample_yc2
       /\ List.length (YearCount.by_month yc) = 12%nat
       /\ forall i m1 m2,
            nth_error (YearCount.by_month sample_yc1) i = Some m1 ->
            nth_error (YearCount.by_month sample_yc2) i = Some m2 ->
            exists m,
              nth_error (YearCount.by_month yc) i = Some m
              /\ MonthCount.new m = MonthCount.new m1 + MonthCount.new m2
              /\ MonthCount.cross m
                 = MonthCount.cross m1 + MonthCount.cross m2
              /\ MonthCount.year m = YearCount.year sample_yc1
              /\ MonthCount.month m = Z.of_nat i + 1.
Proof.
  split; [reflexivity|]. split; [reflexivity|].
  apply (combine_is_pairwise_sum sample_yc1 sample_yc2); reflexivity.
Defined.

(** ** Conservation of the yearly totals (section 4.5) *)

Lemma length_update {A : Type} (l : list A) (i : nat) (f : A -> A) :
  List.length (update l i f) = List.length l.
Proof.
  revert i. induction l as [|x l IH]; intros [|i]; simpl; auto.
Qed.

Lemma nth_error_update_other {A : Type} (l : list A) (i j : nat)
    (f : A -> A) :
  i <> j -> nth_error (update l i f) j = nth_error l j.
Proof.
  revert i j. induction l as [|x l IH]; intros [|i] [|j] H; simpl; auto.
  congruence.
Qed.

Lemma sum_new_update (l : list MonthCount.t) (i : nat) (f : _ -> _) mc :
  nth_error l i = Some mc ->
  sum_new (update l i f)
  = sum_new l - MonthCount.new mc + MonthCount.new (f mc).
Proof.
  unfold sum_new. revert i.
  induction l as [|x l IH]; intros [|i] H; simpl in *; try discriminate.
  - injection H as ->. lia.
  - rewrite (IH i H). lia.
Qed.

Lemma sum_cross_update (l : list MonthCount.t) (i : nat) (f : _ -> _) mc :
  nth_error l i = Some mc ->
  sum_cross (update l i f)
  = sum_cross l - MonthCount.cross mc + MonthCount.cross (f mc).
Proof.
  unfold sum_cross. revert i.
  induction l as [|x l IH]; intros [|i] H; simpl in *; try discriminate.
  - injection H as ->. lia.
  - rewrite (IH i H). lia.
Qed.

(** The precondition on a query result: every month reads as a number of
    1..12, and no two rows read as the same month. *)
Definition month_in_range (entry : CountRow.t) : Prop :=
  exists m, int (CountRow.month entry) = Ok m /\ 1 <= m <= 12.

Definition months_ok (rows : list CountRow.t) : Prop :=
  Forall month_in_range rows
  /\ NoDup (map (fun entry => int (CountRow.month entry)) rows).

(** The month entries the remaining rows will write are still zero. *)
Definition untouched (rows : list CountRow.t) (monthlist : list MonthCount.t)
  : Prop :=
  forall entry m,
    In entry rows -> int (CountRow.month entry) = Ok m ->
    exists mc, nth_error monthlist (Z.to_nat (m - 1)) = Some mc
               /\ MonthCount.new mc = 0 /\ MonthCount.cross mc = 0.

Lemma process_loop_conserves (rows : list CountRow.t) :
  forall monthlist new_total cross_total,
    List.length monthlist = 12%nat ->
    months_ok rows -> untouched rows monthlist ->
    exists monthlist' new_total' cross_total',
      process_loop rows (monthlist, new_total, cross_total)
      = Ok (monthlist', new_total', cross_total')
      /\ List.length monthlist' = 12%nat
      /\ sum_new monthlist' - new_total' = sum_new monthlist - new_total
      /\ sum_cross monthlist' - cross_total'
         = sum_cross monthlist - cross_total.
Proof.
  induction rows as [|entry rows IH];
    intros monthlist new_total cross_total Hlen [Hrange Hnd] Hun.
  - simpl. eauto 10.
  - inversion Hrange as [|? ? [m [Em Hm]] Hrange']; subst.
    simpl in Hnd. apply NoDup_cons_iff in Hnd as [Hfresh Hnd].
    destruct (Hun entry m (or_introl eq_refl) Em) as [mc [Hnth [Hn Hc]]].
    cbn [process_loop]. rewrite Em. cbn [bind].
    assert (py_index monthlist (m - 1) = Ok (Z.to_nat (m - 1))) as Ek.
    { unfold py_index. rewrite Hlen.
      assert ((0 <=? m - 1) && (m - 1 <? Z.of_nat 12) = true) as ->
        by (apply andb_true_intro; split;
            [apply Z.leb_le | apply Z.ltb_lt]; lia).
      reflexivity. }
    rewrite Ek. cbn [bind].
    destruct (IH (update monthlist (Z.to_nat (m - 1)) (set_counts entry))
                 (new_total + CountRow.count_new entry)
                 (cross_total + CountRow.count_cross entry))
      as (ml' & nt' & ct' & E & Hlen' & Hsn & Hsc).
    + now rewrite length_update.
    + now split.
    + intros entry' m' Hin Em'.
      destruct (Hun entry' m' (or_intror Hin) Em') as [mc' [Hnth' Hz]].
      exists mc'. split; [|exact Hz].
      rewrite nth_error_update_other; [exact Hnth'|].
      intros Heq. apply Hfresh. rewrite Em.
      assert (In (int (CountRow.month entry'))
                 (map (fun e => int (CountRow.month e)) rows)) as Hin'
        by (apply (in_map (fun e => int (CountRow.month e))), Hin).
      rewrite Em' in Hin'.
      assert (1 <= m' <= 12) as Hm'.
      { rewrite Forall_forall in Hrange'.
        destruct (Hrange' entry' Hin) as [m'' [Em'' Hm'']].
        rewrite Em' in Em''. injection Em'' as ->. exact Hm''. }
      replace m with m' by lia. exact Hin'.
    + exists ml', nt', ct'. split; [exact E|]. split; [exact Hlen'|].
      rewrite (sum_new_update _ _ _ _ Hnth) in Hsn.
      rewrite (sum_cross_update _ _ _ _ Hnth) in Hsc.
      simpl in Hsn, Hsc. lia.
Qed.

Lemma process_conserves (rows : list CountRow.t) (year : Z) :
  months_ok rows ->
  exists yc,
    _process_yearly_article_counts rows year = Ok yc
    /\ List.length (YearCount.by_month yc) = 12%nat
    /\ sum_new (YearCount.by_month yc) = YearCount.new_count yc
    /\ sum_cross (YearCount.by_month yc) = YearCount.cross_count yc.
Proof.
  intros Hok. unfold _process_yearly_article_counts.
  destruct (process_loop_conserves rows
              (map (fun i => MonthCount.mk year i 0 0) months_1_12) 0 0)
    as (ml & nt & ct & E & Hlen & Hsn & Hsc).
  - reflexivity.
  - exact Hok.
  - intros entry m Hin Em. destruct Hok as [Hrange _].
    rewrite Forall_forall in Hrange.
    destruct (Hrange entry Hin) as [m' [Em' Hm]].
    rewrite Em in Em'. injection Em' as <-.
    assert (Z.to_nat (m - 1) < 12)%nat as Hk by lia.
    rewrite nth_error_map.
    destruct (nth_error months_1_12 (Z.to_nat (m - 1))) as [i|] eqn:Ei.
    + simpl. eauto.
    + apply nth_error_None in Ei. simpl in Ei. lia.
  - rewrite E. simpl. eexists. split; [reflexivity|]. simpl.
    split; [exact Hlen|]. cbn in Hsn, Hsc. lia.
Qed.

(** C6. When the months of each query result read as distinct numbers of
    1..12, [get_yearly_article_counts] returns a year count of twelve months
    whose new values add up to the total new count and whose cross values
    add up to the total cross count; this holds for the single-era years and
    for the merge of 2007. *)
Theorem yearly_totals_conserved (table : list Metadata.t) (archive : string)
    (year : Z) :
  (2007 <= year ->
   months_ok (count_query_new_id (canonical_archive archive) year table)) ->
  (year <= 2007 ->
   months_ok (count_query_old_id (canonical_archive archive) year table)) ->
  exists yc,
    get_yearly_article_counts table archive year = Ok yc
    /\ List.length (YearCount.by_month yc) = 12%nat
    /\ sum_new (YearCount.by_month yc) = YearCount.new_count yc
    /\ sum_cross (YearCount.by_month yc) = YearCount.cross_count yc.
Proof.
  intros Hnew Hold. unfold get_yearly_article_counts.
  destruct (Z.gtb_spec year 2007) as [Hgt|Hle].
  - apply process_conserves, Hnew. lia.
  - destruct (Z.eqb_spec year 2007) as [Heq|Hne].
    + unfold _get_yearly_article_counts_old_id,
        _get_yearly_article_counts_new_id.
      destruct (process_conserves _ year (Hold ltac:(lia)))
        as (yo & Eo & Hlo & Hno & Hco).
      destruct (process_conserves _ year (Hnew ltac:(lia)))
        as (yn & En & Hln & Hnn & Hcn).
      rewrite Eo, En. cbn [bind].
      destruct (combine_loop_twelve yn yo)
        as (months & E & Hlen & _ & Hsn & Hsc); try lia.
      unfold _combine_yearly_article_counts. rewrite E. cbn [bind].
      eexists. split; [reflexivity|]. simpl.
      rewrite !firstn_all2 in Hsn, Hsc by lia.
      split; [exact Hlen|]. lia.
    + apply process_conserves, Hold. lia.
Qed.

Definition sample_record (document_id : Z) (paper_id abs_categories : string)
    (is_current : Z) : Metadata.t :=
  Metadata.mk document_id paper_id 1 "title" "authors" "abstract"
              abs_categories "" "" 10 "" is_current.

(** Records of 2007 under both identifier formats. *)
Definition sample_table : list Metadata.t :=
  [sample_record 1 "math/0701001" "math.AG" 1;
   sample_record 2 "math/0703002" "math.GT math.AG" 1;
   sample_record 3 "hep-th/0703003" "hep-th math.AG" 1;
   sample_record 4 "0704.0001" "math.AG" 1;
   sample_record 5 "0712.0002" "cs.AI math.CO" 1;
   sample_record 6 "0712.0003" "math-ph" 1].

Lemma yearly_totals_conserved_witness :
  months_ok (count_query_new_id (canonical_archive "math") 2007 sample_table)
  /\ months_ok
       (count_query_old_id (canonical_archive "math") 2007 sample_table)
  /\ exists yc,
       get_yearly_article_counts sample_table "math" 2007 = Ok yc
       /\ List.length (YearCount.by_month yc) = 12%nat
       /\ sum_new (YearCount.by_month yc) = YearCount.new_count yc
       /\ sum_cross (YearCount.by_month yc) = YearCount.cross_count yc.
Proof.
  assert (forall rows,
             Forall (fun e => exists m,
                         int_literal (CountRow.month e) = Some m
                         /\ (1 <=? m) && (m <=? 12) = true) rows ->
             Forall month_in_range rows) as Hrange.
  { intros rows H. eapply Forall_impl; [|exact H].
    intros e [m [Em Hm]]. exists m. unfold int. rewrite Em.
    apply andb_prop in Hm as [H1 H2]. apply Z.leb_le in H1, H2. auto. }
  assert (months_ok
            (count_query_new_id (canonical_archive "math") 2007 sample_table))
    as Hnew.
  { split.
    - apply Hrange. vm_compute.
      repeat (apply Forall_cons; [eexists; split; reflexivity|]).
      apply Forall_nil.
    - vm_compute. repeat constructor; simpl; intuition discriminate. }
  assert (months_ok
            (count_query_old_id (canonical_archive "math") 2007 sample_table))
    as Hold.
  { split.
    - apply Hrange. vm_compute.
      repeat (apply Forall_cons; [eexists; split; reflexivity|]).
      apply Forall_nil.
    - vm_compute. repeat constructor; simpl; intuition discriminate. }
  split; [exact Hnew|]. split; [exact Hold|].
  apply (yearly_totals_conserved sample_table "math" 2007);
    intros _; assumption.
Defined.

Lemma sample_yearly_counts :
  match get_yearly_article_counts sample_table "math" 2007 with
  | Ok yc =>
      (YearCount.new_count yc, YearCount.cross_count yc,
       map (fun m => (MonthCount.new m, MonthCount.cross m))
           (YearCount.by_month yc))
      = (3, 2, [(1, 0); (0, 0); (1, 1); (1, 0); (0, 0); (0, 0); (0, 0);
                (0, 0); (0, 0); (0, 0); (0, 0); (0, 1)])
  | Raise _ => False
  end.
Proof. vm_compute. reflexivity. Qed.

(** Outside the precondition the totals need not be conserved: month [00]
    is written through index [-1] into December, which the row of month
    [12] then overwrites. *)
Lemma month_zero_wraps_to_december :
  match get_yearly_article_counts
          [sample_record 1 "0900.0001" "cs.AI" 1;
           sample_record 2 "0912.0001" "cs.AI" 1] "cs" 2009 with
  | Ok yc =>
      YearCount.new_count yc = 2 /\ sum_new (YearCount.by_month yc) = 1
  | Raise _ => False
  end.
Proof. vm_compute. split; reflexivity. Qed.

(** [int] skips the white space of [str.isspace] around a literal, except
    the separators 28..31. *)
Lemma int_examples :
  int "07" = Ok 7 /\ int " 7 " = Ok 7 /\ int "-3" = Ok (-3)
  /\ int "1_0" = Ok 10 /\ int "" = Raise ValueError
  /\ int (String (ascii_of_nat 31) "5") = Raise ValueError
  /\ int (String (ascii_of_nat 160) "5") = Ok 5.
Proof. repeat split. Qed.

(** ** The yearly counts and the current flag (section 4.5) *)

Lemma filter_map_swap {A B : Type} (p : B -> bool) (g : A -> B)
    (l : list A) :
  filter p (map g l) = map g (filter (fun x => p (g x)) l).
Proof.
  induction l as [|x l IH]; simpl; [reflexivity|].
  rewrite IH. destruct (p (g x)); reflexivity.
Qed.

Section ColumnsRead.

(** A rewriting of the records that keeps the two columns the count
    queries read. *)
Variable g : Metadata.t -> Metadata.t.
Hypothesis keeps_paper_id :
  forall m, Metadata.paper_id (g m) = Metadata.paper_id m.
Hypothesis keeps_abs_categories :
  forall m, Metadata.abs_categories (g m) = Metadata.abs_categories m.

Lemma categorization_case_keeps (archive : string) (m : Metadata.t) :
  categorization_case archive (g m) = categorization_case archive m.
Proof.
  unfold categorization_case. now rewrite keeps_abs_categories.
Qed.

Lemma count_distinct_keeps (archive label : string)
    (group : list Metadata.t) :
  count_distinct archive label (map g group)
  = count_distinct archive label group.
Proof.
  unfold count_distinct. rewrite filter_map_swap, map_map.
  do 3 f_equal.
  rewrite (filter_ext _ (fun m => (categorization_case archive m =? label)
                                  %string))
    by (intros m; now rewrite categorization_case_keeps).
  apply map_ext, keeps_paper_id.
Qed.

Lemma group_counts_keeps (archive : string)
    (month_of : Metadata.t -> string) (rows : list Metadata.t) :
  (forall m, month_of (g m) = month_of m) ->
  group_counts archive month_of (map g rows)
  = group_counts archive month_of rows.
Proof.
  intros Hmonth. unfold group_counts.
  rewrite map_map, (map_ext _ month_of Hmonth).
  apply map_ext. intros k.
  rewrite filter_map_swap, !count_distinct_keeps.
  now rewrite (filter_ext _ (fun m => (month_of m =? k)%string))
    by (intros m; now rewrite Hmonth).
Qed.

Lemma count_query_new_id_keeps archive year table :
  count_query_new_id archive year (map g table)
  = count_query_new_id archive year table.
Proof.
  unfold count_query_new_id.
  rewrite filter_map_swap, group_counts_keeps
    by (intros m; now rewrite keeps_paper_id).
  f_equal. apply filter_ext. intros m. now rewrite keeps_paper_id.
Qed.

Lemma count_query_old_id_keeps archive year table :
  count_query_old_id archive year (map g table)
  = count_query_old_id archive year table.
Proof.
  unfold count_query_old_id.
  rewrite filter_map_swap, group_counts_keeps
    by (intros m; now rewrite keeps_paper_id).
  f_equal. apply filter_ext. intros m. now rewrite keeps_paper_id.
Qed.

Lemma yearly_counts_keep table archive year :
  get_yearly_article_counts (map g table) archive year
  = get_yearly_article_counts table archive year.
Proof.
  unfold get_yearly_article_counts, _get_yearly_article_counts_new_id,
    _get_yearly_article_counts_old_id.
  now rewrite count_query_new_id_keeps, count_query_old_id_keeps.
Qed.

End ColumnsRead.

Definition set_is_current (flag : Metadata.t -> Z) (m : Metadata.t)
  : Metadata.t :=
  Metadata.mk (Metadata.document_id m) (Metadata.paper_id m)
              (Metadata.version m) (Metadata.title m) (Metadata.authors m)
              (Metadata.abstract m) (Metadata.abs_categories m)
              (Metadata.comments m) (Metadata.journal_ref m)
              (Metadata.source_size m) (Metadata.source_flags m) (flag m).

Definition current_only (table : list Metadata.t) : list Metadata.t :=
  filter (fun m => Metadata.is_current m =? 1) table.

(** C4, as the code has it. The yearly counts do not read the current flag:
    whatever flags the records carry, both era queries and the year count
    built from them are the same, so a record that is not current is
    classified and counted like a current one (once per paper id). *)
Theorem yearly_counts_ignore_is_current (table : list Metadata.t)
    (archive : string) (year : Z) (flag : Metadata.t -> Z) :
  count_query_new_id archive year (map (set_is_current flag) table)
  = count_query_new_id archive year table
  /\ count_query_old_id archive year (map (set_is_current flag) table)
     = count_query_old_id archive year table
  /\ get_yearly_article_counts (map (set_is_current flag) table) archive year
     = get_yearly_article_counts table archive year.
Proof.
  split; [|split].
  - now apply count_query_new_id_keeps.
  - now apply count_query_old_id_keeps.
  - now apply yearly_counts_keep.
Qed.

(** C4 fails as stated: a store whose only record is not current still
    counts one new paper for March 2009, where the count over the current
    records alone is zero. *)
Lemma non_current_record_is_counted :
  let table := [sample_record 1 "0903.0001" "cs.AI cs.LG" 0] in
  current_only table = []
  /\ match get_yearly_article_counts table "cs" 2009 with
     | Ok yc =>
         YearCount.new_count yc = 1
         /\ map MonthCount.new (YearCount.by_month yc)
            = [0; 0; 1; 0; 0; 0; 0; 0; 0; 0; 0; 0]
     | Raise _ => False
     end
  /\ get_yearly_article_counts table "cs" 2009
     <> get_yearly_article_counts (current_only table) "cs" 2009.
Proof.
  split; [reflexivity|]. split.
  - vm_compute. split; reflexivity.
  - vm_compute. discriminate.
Qed.

(** A superseded version is counted next to the current one: the paper is
    new through its first version and cross through its second. *)
Lemma superseded_version_is_counted :
  match get_yearly_article_counts
          [Metadata.mk 1 "0903.0001" 1 "t" "a" "abs" "cs.AI" "" "" 1 "" 0;
           Metadata.mk 1 "0903.0001" 2 "t" "a" "abs" "math.CO cs.AI" "" "" 1
                       "" 1] "cs" 2009 with
  | Ok yc => YearCount.new_count yc = 1 /\ YearCount.cross_count yc = 1
  | Raise _ => False
  end.
Proof. vm_compute. split; reflexivity. Qed.

(** ** Rows and items of a listing *)

Definition is_new (entry : Metadata.t * Z) : bool := snd entry =? 1.

Definition row_paper_id (entry : Metadata.t * Z) : string :=
  Metadata.paper_id (fst entry).

Lemma make_item_fields (entry : Metadata.t * Z) (item : ListingItem.t) :
  make_item entry = Ok item ->
  ListingItem.id item = row_paper_id entry
  /\ ListingItem.listingType item
     = (if is_new entry then "new" else "cross")
  /\ first_token (Metadata.abs_categories (fst entry))
     = Ok (ListingItem.primary item).
Proof.
  destruct entry as [meta primary]. unfold make_item, is_new, row_paper_id.
  simpl fst. simpl snd.
  destruct (first_token (Metadata.abs_categories meta)) as [tok|e];
    simpl; [|discriminate].
  intros [= <-]. repeat split.
Qed.

(** The two lists the assembly returns are the items of the rows flagged 1
    and the items of the other rows, each in the order of the rows. *)
Lemma entries_partition (rows : list (Metadata.t * Z)) news crosses :
  _entries_into_listing_items rows = Ok (news, crosses) ->
  Forall2 (fun entry item => make_item entry = Ok item)
          (filter is_new rows) news
  /\ Forall2 (fun entry item => make_item entry = Ok item)
             (filter (fun entry => negb (is_new entry)) rows) crosses.
Proof.
  revert news crosses.
  induction rows as [|entry rows IH]; intros news crosses; simpl.
  - intros [= <- <-]. split; constructor.
  - destruct (make_item entry) as [item|e] eqn:Ei; simpl; [|discriminate].
    destruct (_entries_into_listing_items rows) as [[n c]|e]; simpl;
      [|discriminate].
    destruct (IH n c eq_refl) as [Hn Hc].
    change (snd entry =? 1) with (is_new entry).
    destruct (is_new entry); intros [= <- <-]; simpl; split;
      try constructor; assumption.
Qed.

Lemma Forall2_items_ids rows items :
  Forall2 (fun entry item => make_item entry = Ok item) rows items ->
  map ListingItem.id items = map row_paper_id rows.
Proof.
  induction 1 as [|entry item rows items H _ IH]; simpl; [reflexivity|].
  destruct (make_item_fields _ _ H) as [-> _]. now rewrite IH.
Qed.

Lemma Forall2_items_type rows items (p : Metadata.t * Z -> bool) :
  Forall2 (fun entry item => make_item entry = Ok item) (filter p rows)
          items ->
  Forall (fun item => exists entry,
              In entry rows /\ p entry = true /\ make_item entry = Ok item)
         items.
Proof.
  remember (filter p rows) as l eqn:El. intros H.
  assert (forall entry, In entry l -> In entry rows /\ p entry = true) as Hl
    by (intros entry Hin; subst l; now apply filter_In in Hin).
  clear El. induction H as [|entry item l items H _ IH]; constructor.
  - exists entry. destruct (Hl entry (or_introl eq_refl)). auto.
  - apply IH. intros e He. apply Hl. now right.
Qed.

Lemma In_insert_row le r x l :
  In x (insert_row le r l) <-> x = r \/ In x l.
Proof.
  induction l as [|r' l IH]; simpl.
  - intuition.
  - destruct (row_leb le r r'); simpl; [intuition|].
    rewrite IH. intuition.
Qed.

Lemma In_order_by le x l : In x (order_by le l) <-> In x l.
Proof.
  induction l as [|r l IH]; simpl; [tauto|].
  unfold order_by in *. simpl. rewrite In_insert_row, IH. intuition.
Qed.

Lemma firstn_subset {A : Type} (n : nat) (l : list A) (x : A) :
  In x (firstn n l) -> In x l.
Proof.
  revert l. induction n as [|n IH]; intros [|y l]; simpl; try tauto.
  intros [H|H]; [now left | right; now apply IH].
Qed.

Lemma skipn_subset {A : Type} (n : nat) (l : list A) (x : A) :
  In x (skipn n l) -> In x l.
Proof.
  revert l. induction n as [|n IH]; intros [|y l]; simpl; try tauto.
  intros H. right. now apply IH.
Qed.

Lemma In_page_rows le db year month skip show cats entry :
  In entry (page_rows le db year month skip show cats) ->
  In entry (main_query db (doc_ids db year month) cats).
Proof.
  unfold page_rows. intros H.
  apply (In_order_by le). eapply skipn_subset, firstn_subset, H.
Qed.

(** The flag the query attaches to a document: the largest [is_primary]
    among its associations with a category of the list. *)
Definition any_primary (db : Store) (category_list : list string) (d : Z)
  : Z :=
  max_list
    (map DocumentCategory.is_primary
       (filter (fun dc => (DocumentCategory.document_id dc =? d)
                          && mem (DocumentCategory.category dc) category_list)
               (document_categories db))).

Lemma cat_rows_of_document db ids cats d :
  existsb (Z.eqb d) ids = true ->
  filter (fun dc => DocumentCategory.document_id dc =? d)
         (cat_rows db ids cats)
  = filter (fun dc => (DocumentCategory.document_id dc =? d)
                      && mem (DocumentCategory.category dc) cats)
           (document_categories db).
Proof.
  intros Hd. unfold cat_rows.
  induction (document_categories db) as [|dc l IH]; simpl; [reflexivity|].
  destruct (Z.eqb_spec (DocumentCategory.document_id dc) d) as [E|E].
  - rewrite E, Hd. simpl.
    destruct (mem (DocumentCategory.category dc) cats); simpl.
    + rewrite E, Z.eqb_refl. now rewrite IH.
    + exact IH.
  - simpl.
    destruct (existsb (Z.eqb (DocumentCategory.document_id dc)) ids); simpl;
      [|exact IH].
    destruct (mem (DocumentCategory.category dc) cats); simpl; [|exact IH].
    destruct (Z.eqb_spec (DocumentCategory.document_id dc) d);
      [contradiction | exact IH].
Qed.

Lemma In_cat_query db ids cats d p :
  In (d, p) (cat_query db ids cats) -> p = any_primary db cats d.
Proof.
  unfold cat_query. intros H. apply in_map_iff in H as [d' [[= -> <-] Hin]].
  apply nodup_In, in_map_iff in Hin as [dc [Ed Hdc]].
  unfold cat_rows in Hdc. apply filter_In in Hdc as [Hdc _].
  apply filter_In in Hdc as [_ Hids]. rewrite Ed in Hids.
  unfold any_primary. now rewrite cat_rows_of_document.
Qed.

Lemma In_main_query db ids cats meta p :
  In (meta, p) (main_query db ids cats) ->
  In meta (metadata db) /\ Metadata.is_current meta = 1
  /\ p = any_primary db cats (Metadata.document_id meta).
Proof.
  unfold main_query. intros H.
  apply in_flat_map in H as [[d q] [Hc H]].
  apply in_map_iff in H as [meta' [[= -> <-] H]].
  apply filter_In in H as [Hin Hb]. apply andb_prop in Hb as [Hd Hcur].
  simpl in Hd. apply Z.eqb_eq in Hd, Hcur. subst d.
  split; [exact Hin|]. split; [exact Hcur|].
  now apply In_cat_query in Hc.
Qed.

Lemma fold_max_In (xs : list Z) (x : Z) : In (fold_left Z.max xs x) (x :: xs).
Proof.
  revert x. induction xs as [|y xs IH]; intros x; [simpl; auto|].
  cbn [fold_left].
  destruct (IH (Z.max x y)) as [H|H]; [|right; right; exact H].
  rewrite <- H.
  destruct (Z.max_spec x y) as [[_ E] | [_ E]]; rewrite E;
    [right; left | left]; reflexivity.
Qed.

Lemma fold_max_acc (xs : list Z) (x : Z) : x <= fold_left Z.max xs x.
Proof.
  revert x. induction xs as [|z xs IH]; intros x; simpl; [lia|].
  specialize (IH (Z.max x z)). lia.
Qed.

Lemma fold_max_ge (xs : list Z) (x y : Z) :
  In y (x :: xs) -> y <= fold_left Z.max xs x.
Proof.
  revert x. induction xs as [|z xs IH]; intros x.
  - intros [->|[]]. simpl. lia.
  - cbn [fold_left]. pose proof (fold_max_acc xs (Z.max x z)) as Hacc.
    intros [->|[->|H]]; [lia | lia |].
    apply IH. simpl. auto.
Qed.

Lemma max_list_In (l : list Z) : l <> [] -> In (max_list l) l.
Proof.
  destruct l as [|x xs]; [congruence|]. intros _. apply fold_max_In.
Qed.

Lemma max_list_ge (l : list Z) (y : Z) : In y l -> y <= max_list l.
Proof.
  destruct l as [|x xs]; [intros []|]. apply fold_max_ge.
Qed.

Lemma max_list_binary (l : list Z) :
  Forall (fun x => x = 0 \/ x = 1) l -> max_list l = 0 \/ max_list l = 1.
Proof.
  intros H. destruct l as [|x xs]; [now left|].
  rewrite Forall_forall in H. apply H, max_list_In. discriminate.
Qed.

(** ** Partition of a listing into new and cross (sections 4.3, 4.4) *)

(** The document's primary category, read off the category string, lies in
    the list. *)
Definition primary_in (category_list : list string) (meta : Metadata.t)
  : Prop :=
  exists tok, first_token (Metadata.abs_categories meta) = Ok tok
              /\ In tok category_list.

(** The association table agrees with the category string of a record: the
    flags of the document are 0 or 1, the association flagged 1 is the one
    of the first token, and the first token has an association. *)
Definition flags_agree (db : Store) (meta : Metadata.t) : Prop :=
  (forall dc,
      In dc (document_categories db) ->
      DocumentCategory.document_id dc = Metadata.document_id meta ->
      (DocumentCategory.is_primary dc = 0
       \/ DocumentCategory.is_primary dc = 1)
      /\ (DocumentCategory.is_primary dc = 1
          <-> first_token (Metadata.abs_categories meta)
              = Ok (DocumentCategory.category dc)))
  /\ (forall tok,
         first_token (Metadata.abs_categories meta) = Ok tok ->
         exists dc, In dc (document_categories db)
                    /\ DocumentCategory.document_id dc
                       = Metadata.document_id meta
                    /\ DocumentCategory.category dc = tok).

Lemma any_primary_agrees db cats meta :
  flags_agree db meta ->
  any_primary db cats (Metadata.document_id meta) = 1 <-> primary_in cats meta.
Proof.
  intros [Hflag Hrow]. unfold any_primary.
  set (d := Metadata.document_id meta) in *.
  set (l := filter _ (document_categories db)).
  assert (forall dc, In dc l <->
                     In dc (document_categories db)
                     /\ DocumentCategory.document_id dc = d
                     /\ In (DocumentCategory.category dc) cats) as Hl.
  { intros dc. unfold l. rewrite filter_In, andb_true_iff, Z.eqb_eq, mem_In.
    tauto. }
  split.
  - intros Hmax.
    assert (map DocumentCategory.is_primary l <> []) as Hne
      by (intros E; rewrite E in Hmax; discriminate).
    apply max_list_In in Hne. rewrite Hmax in Hne.
    apply in_map_iff in Hne as [dc [Hp Hdc]].
    apply Hl in Hdc as [Hin [Hd Hcat]].
    exists (DocumentCategory.category dc). split; [|exact Hcat].
    now apply (Hflag dc Hin Hd).
  - intros [tok [Htok Hcat]].
    destruct (Hrow tok Htok) as [dc [Hin [Hd Ec]]]. subst tok.
    assert (DocumentCategory.is_primary dc = 1) as Hp
      by now apply (Hflag dc Hin Hd).
    assert (In 1 (map DocumentCategory.is_primary l)) as H1.
    { rewrite <- Hp. apply in_map, Hl. auto. }
    apply max_list_ge in H1.
    assert (Forall (fun x => x = 0 \/ x = 1)
                   (map DocumentCategory.is_primary l)) as Hbin.
    { apply Forall_forall. intros x Hx.
      apply in_map_iff in Hx as [dc' [<- Hdc']].
      apply Hl in Hdc' as [Hin' [Hd' _]]. now apply (Hflag dc' Hin' Hd'). }
    apply max_list_binary in Hbin. lia.
Qed.

(** What the query lets one say of an item of the listing. *)
Definition item_from (db : Store) (category_list : list string)
    (item : ListingItem.t) : Prop :=
  exists meta,
    In meta (metadata db) /\ Metadata.is_current meta = 1
    /\ ListingItem.id item = Metadata.paper_id meta
    /\ first_token (Metadata.abs_categories meta)
       = Ok (ListingItem.primary item)
    /\ (ListingItem.listingType item = "new"
        <-> any_primary db category_list (Metadata.document_id meta) = 1)
    /\ (ListingItem.listingType item = "cross"
        <-> any_primary db category_list (Metadata.document_id meta) <> 1)
    /\ (flags_agree db meta ->
        (ListingItem.listingType item = "new"
         <-> In (ListingItem.primary item) category_list)).

Lemma item_of_row le db year month skip show cats entry item :
  In entry (page_rows le db year month skip show cats) ->
  make_item entry = Ok item ->
  item_from db cats item.
Proof.
  intros Hin Hitem. apply In_page_rows in Hin.
  destruct entry as [meta p].
  apply In_main_query in Hin as [Hmeta [Hcur Hp]].
  destruct (make_item_fields _ _ Hitem) as [Hid [Hty Htok]].
  unfold row_paper_id, is_new in *. simpl in *.
  exists meta. repeat (split; [assumption|]).
  assert (ListingItem.listingType item = "new" <-> p = 1) as Hnew.
  { rewrite Hty. destruct (Z.eqb_spec p 1); split; congruence. }
  assert (ListingItem.listingType item = "cross" <-> p <> 1) as Hcross.
  { rewrite Hty. destruct (Z.eqb_spec p 1); split; congruence. }
  subst p. split; [exact Hnew|]. split; [exact Hcross|].
  intros Hagree. rewrite Hnew, (any_primary_agrees _ _ _ Hagree).
  unfold primary_in. rewrite Htok. split.
  - intros [tok [[= <-] H]]. exact H.
  - intros H. eauto.
Qed.

(** C1, as the code has it. Every item of a returned listing comes from a
    current metadata record; its type is [new] exactly when the largest
    [is_primary] among the document's associations with a category of the
    resolved list is 1, and [cross] otherwise.  When the association table
    agrees with the record's category string, this is the same as: the type
    is [new] exactly when the primary category, the first token of the
    category string, lies in the resolved list. *)
Theorem listing_type_follows_flag tx le db gen_expires a year month
    skip show listing :
  get_articles_for_month tx le db gen_expires a year month skip show
  = Ok listing ->
  exists category_list,
    _all_possible_categories tx a = Ok category_list
    /\ Forall (item_from db category_list) (Listing.listings listing).
Proof.
  rewrite get_articles_for_month_unfold.
  destruct (_all_possible_categories tx a) as [cats|e]; [|discriminate].
  simpl.
  destruct (_entries_into_listing_items _) as [[news crosses]|e] eqn:El;
    [|discriminate].
  simpl. destruct (datetime _ _ _) as [date|e]; [|discriminate].
  simpl. intros [= <-]. simpl. exists cats. split; [reflexivity|].
  destruct (entries_partition _ _ _ El) as [Hn Hc].
  apply Forall2_items_type in Hn, Hc.
  apply Forall_app. split; [revert Hn | revert Hc];
    apply Forall_impl; intros item [entry [Hin [_ Hitem]]];
    eapply item_of_row; eassumption.
Qed.

(** The store of the specification's scenario: [cs.AI] is the primary
    category of documents 1 and 3 and a secondary one of document 2. *)
Definition sample_store : Store :=
  {| documents := [Document.mk 1 "0903.0001"; Document.mk 2 "0903.0002";
                   Document.mk 3 "0903.0003"; Document.mk 4 "0904.0001"];
     document_categories :=
       [DocumentCategory.mk 2 "cs.LG" 1; DocumentCategory.mk 2 "cs.AI" 0;
        DocumentCategory.mk 3 "cs.AI" 1;
        DocumentCategory.mk 1 "cs.AI" 1; DocumentCategory.mk 1 "cs.LG" 0;
        DocumentCategory.mk 4 "cs.AI" 1];
     metadata :=
       [sample_record 3 "0903.0003" "cs.AI" 1;
        sample_record 2 "0903.0002" "cs.LG cs.AI" 1;
        sample_record 1 "0903.0001" "cs.AI cs.LG" 1;
        sample_record 1 "0903.0001" "cs.LG" 0;
        sample_record 4 "0904.0001" "cs.AI" 1] |}.

Definition summary (listing : Listing.t) : list (string * string * string) :=
  map (fun item => (ListingItem.id item, ListingItem.listingType item,
                    ListingItem.primary item))
      (Listing.listings listing).

Lemma sample_listing :
  match get_articles_for_month sample_taxonomy String.leb sample_store
          "expires" "cs.AI" 2009 (Some 3) 0 10 with
  | Ok listing =>
      summary listing
      = [("0903.0001", "new", "cs.AI"); ("0903.0003", "new", "cs.AI");
         ("0903.0002", "cross", "cs.LG")]
      /\ Listing.count listing = 3
      /\ Listing.pubdates listing = [(mk_datetime 2009 3 1, 1)]
  | Raise _ => False
  end.
Proof. vm_compute. repeat split. Qed.

Lemma listing_type_follows_flag_witness :
  exists listing,
    get_articles_for_month sample_taxonomy String.leb sample_store
      "expires" "cs.AI" 2009 (Some 3) 0 10 = Ok listing
    /\ exists category_list,
         _all_possible_categories sample_taxonomy "cs.AI" = Ok category_list
         /\ Forall (item_from sample_store category_list)
                   (Listing.listings listing).
Proof.
  eexists. split; [vm_compute; reflexivity|].
  apply (listing_type_follows_flag sample_taxonomy String.leb sample_store
           "expires" "cs.AI" 2009 (Some 3) 0%nat 10%nat).
  vm_compute. reflexivity.
Defined.

(** A store whose association table flags [cs.AI] as primary while the
    category string of the current record starts with [cs.LG]. *)
Definition disagreeing_store : Store :=
  {| documents := [Document.mk 1 "0903.0001"];
     document_categories := [DocumentCategory.mk 1 "cs.AI" 1;
                             DocumentCategory.mk 1 "cs.LG" 0];
     metadata := [sample_record 1 "0903.0001" "cs.LG cs.AI" 1] |}.

(** C1 fails as stated: the item is [new] although the first token of its
    category string, [cs.LG], is not in the list resolved from [cs.AI]. *)
Lemma new_item_with_primary_outside :
  _all_possible_categories sample_taxonomy "cs.AI" = Ok ["cs.AI"]
  /\ match get_articles_for_month sample_taxonomy String.leb
             disagreeing_store "expires" "cs.AI" 2009 (Some 3) 0 10 with
     | Ok listing => summary listing = [("0903.0001", "new", "cs.LG")]
     | Raise _ => False
     end
  /\ ~ In "cs.LG" ["cs.AI"]
  /\ ~ (forall listing item,
           get_articles_for_month sample_taxonomy String.leb
             disagreeing_store "expires" "cs.AI" 2009 (Some 3) 0 10
           = Ok listing ->
           In item (Listing.listings listing) ->
           (ListingItem.listingType item = "new"
            <-> In (ListingItem.primary item) ["cs.AI"])).
Proof.
  assert (~ In "cs.LG" ["cs.AI"]) as Hout
    by (simpl; intuition discriminate).
  split; [reflexivity|]. split; [vm_compute; reflexivity|].
  split; [exact Hout|].
  intros H.
  destruct (get_articles_for_month sample_taxonomy String.leb
              disagreeing_store "expires" "cs.AI" 2009 (Some 3) 0 10)
    as [listing|e] eqn:E; [|vm_compute in E; discriminate].
  assert (summary listing = [("0903.0001", "new", "cs.LG")]) as Hs
    by (vm_compute in E; injection E as <-; reflexivity).
  unfold summary in Hs.
  destruct (Listing.listings listing) as [|item [|? ?]] eqn:El;
    try discriminate.
  injection Hs as _ Hty Hprim.
  apply Hout. rewrite <- Hprim.
  apply (H listing item eq_refl); [rewrite El; now left | exact Hty].
Qed.

(** ** Order of a listing (section 4.3) *)

Lemma StronglySorted_filter {A : Type} (R : A -> A -> Prop)
    (p : A -> bool) (l : list A) :
  StronglySorted R l -> StronglySorted R (filter p l).
Proof.
  induction 1 as [|x l Hs IH Hx]; simpl; [constructor|].
  destruct (p x); [|exact IH].
  constructor; [exact IH|].
  rewrite Forall_forall in *. intros y Hy. apply Hx.
  now apply filter_In in Hy.
Qed.

Lemma StronglySorted_skipn {A : Type} (R : A -> A -> Prop) (n : nat)
    (l : list A) :
  StronglySorted R l -> StronglySorted R (skipn n l).
Proof.
  revert l. induction n as [|n IH]; intros l H; [exact H|].
  destruct l as [|x l]; [constructor|].
  simpl. apply IH. now inversion H.
Qed.

Lemma StronglySorted_firstn {A : Type} (R : A -> A -> Prop) (n : nat)
    (l : list A) :
  StronglySorted R l -> StronglySorted R (firstn n l).
Proof.
  revert l. induction n as [|n IH]; intros l H; [constructor|].
  destruct l as [|x l]; [constructor|].
  simpl. inversion H as [|? ? Hs Hx]; subst.
  constructor; [now apply IH|].
  rewrite Forall_forall in *. intros y Hy. apply Hx.
  now apply firstn_subset in Hy.
Qed.

Lemma StronglySorted_map {A B : Type} (R : A -> A -> Prop)
    (R' : B -> B -> Prop) (f : A -> B) (l : list A) :
  (forall x y, In x l -> In y l -> R x y -> R' (f x) (f y)) ->
  StronglySorted R l -> StronglySorted R' (map f l).
Proof.
  intros Hf H. induction H as [|x l Hs IH Hx]; simpl; [constructor|].
  constructor.
  - apply IH. intros a b Ha Hb. apply Hf; now right.
  - rewrite Forall_forall in *. intros b Hb.
    apply in_map_iff in Hb as [y [<- Hy]].
    apply Hf; [now left | now right | now apply Hx].
Qed.

Section ListingOrder.

(** The order of the store's collation on paper ids. *)
Variable le : string -> string -> bool.
Hypothesis le_total : forall s t, le s t = true \/ le t s = true.
Hypothesis le_trans :
  forall s t u, le s t = true -> le t u = true -> le s u = true.

Definition row_le (r1 r2 : Metadata.t * Z) : Prop := row_leb le r1 r2 = true.

Definition ascending (ids : list string) : Prop :=
  StronglySorted (fun s t => le s t = true) ids.

Lemma row_leb_cases (r1 r2 : Metadata.t * Z) :
  row_leb le r1 r2 = true
  <-> snd r2 < snd r1
      \/ (snd r1 = snd r2 /\ le (row_paper_id r1) (row_paper_id r2) = true).
Proof.
  unfold row_leb, row_paper_id.
  rewrite orb_true_iff, andb_true_iff, Z.ltb_lt, Z.eqb_eq. tauto.
Qed.

Lemma row_le_total (r1 r2 : Metadata.t * Z) : row_le r1 r2 \/ row_le r2 r1.
Proof.
  unfold row_le. rewrite !row_leb_cases.
  destruct (Z.lt_total (snd r1) (snd r2)) as [H|[H|H]]; auto.
  destruct (le_total (row_paper_id r1) (row_paper_id r2)); auto.
Qed.

Lemma row_le_trans (r1 r2 r3 : Metadata.t * Z) :
  row_le r1 r2 -> row_le r2 r3 -> row_le r1 r3.
Proof.
  unfold row_le. rewrite !row_leb_cases.
  intros [H1|[H1 L1]] [H2|[H2 L2]]; try (left; lia).
  right. split; [lia|]. eapply le_trans; eassumption.
Qed.

Lemma insert_row_sorted (r : Metadata.t * Z) (l : list (Metadata.t * Z)) :
  StronglySorted row_le l -> StronglySorted row_le (insert_row le r l).
Proof.
  induction 1 as [|x l Hs IH Hx]; simpl.
  - repeat constructor.
  - destruct (row_leb le r x) eqn:E.
    + constructor; [now constructor|].
      constructor; [exact E|].
      eapply Forall_impl; [|exact Hx].
      intros y Hy. eapply row_le_trans; eassumption.
    + constructor; [exact IH|].
      apply Forall_forall. intros y Hy.
      apply In_insert_row in Hy as [->|Hy].
      * destruct (row_le_total r x) as [H|H]; [|exact H].
        unfold row_le in H. congruence.
      * rewrite Forall_forall in Hx. now apply Hx.
Qed.

Lemma order_by_sorted (l : list (Metadata.t * Z)) :
  StronglySorted row_le (order_by le l).
Proof.
  induction l as [|r l IH]; [constructor|].
  apply insert_row_sorted, IH.
Qed.

Lemma page_rows_sorted db year month skip show cats :
  StronglySorted row_le (page_rows le db year month skip show cats).
Proof.
  apply StronglySorted_firstn, StronglySorted_skipn, order_by_sorted.
Qed.

(** Rows that carry the same flag are ordered by paper id. *)
Lemma same_flag_ascending (rows : list (Metadata.t * Z)) (flag : Z) :
  StronglySorted row_le rows ->
  Forall (fun r => snd r = flag) rows ->
  ascending (map row_paper_id rows).
Proof.
  intros Hs Hflag. rewrite Forall_forall in Hflag.
  apply (StronglySorted_map row_le); [|exact Hs].
  intros x y Hx Hy H. apply row_leb_cases in H as [H|[_ H]]; [|exact H].
  rewrite (Hflag x Hx), (Hflag y Hy) in H. lia.
Qed.

(** The flags of the association table are 0 or 1. *)
Definition binary_flags (db : Store) : Prop :=
  Forall (fun dc => DocumentCategory.is_primary dc = 0
                    \/ DocumentCategory.is_primary dc = 1)
         (document_categories db).

Lemma any_primary_binary db cats d :
  binary_flags db ->
  any_primary db cats d = 0 \/ any_primary db cats d = 1.
Proof.
  intros H. apply max_list_binary, Forall_forall. intros x Hx.
  apply in_map_iff in Hx as [dc [<- Hdc]]. apply filter_In in Hdc as [Hdc _].
  unfold binary_flags in H. rewrite Forall_forall in H. now apply H.
Qed.

(** C3. In a returned listing the items of type [new] come first and the
    items of type [cross] after them, and in each of the two groups the
    paper ids ascend in the order of the store's collation (the flags of
    the association table being 0 or 1). *)
Theorem listing_new_first_ids_ascending tx db gen_expires a year month
    skip show listing :
  binary_flags db ->
  get_articles_for_month tx le db gen_expires a year month skip show
  = Ok listing ->
  exists news crosses,
    Listing.listings listing = (news ++ crosses)%list
    /\ Forall (fun item => ListingItem.listingType item = "new") news
    /\ Forall (fun item => ListingItem.listingType item = "cross") crosses
    /\ ascending (map ListingItem.id news)
    /\ ascending (map ListingItem.id crosses).
Proof.
  intros Hbin. rewrite get_articles_for_month_unfold.
  destruct (_all_possible_categories tx a) as [cats|e]; [|discriminate].
  simpl.
  destruct (_entries_into_listing_items _) as [[news crosses]|e] eqn:El;
    [|discriminate].
  simpl. destruct (datetime _ _ _) as [date|e]; [|discriminate].
  simpl. intros [= <-]. simpl. exists news, crosses.
  split; [reflexivity|].
  destruct (entries_partition _ _ _ El) as [Hn Hc].
  pose proof (page_rows_sorted db year month skip show cats) as Hsorted.
  pose proof (Forall2_items_type _ _ _ Hn) as Tn.
  pose proof (Forall2_items_type _ _ _ Hc) as Tc.
  split; [|split; [|split]].
  - eapply Forall_impl; [|exact Tn].
    intros item [entry [_ [Hnew Hitem]]].
    destruct (make_item_fields _ _ Hitem) as [_ [-> _]]. now rewrite Hnew.
  - eapply Forall_impl; [|exact Tc].
    intros item [entry [_ [Hnew Hitem]]].
    destruct (make_item_fields _ _ Hitem) as [_ [-> _]].
    apply negb_true_iff in Hnew. now rewrite Hnew.
  - rewrite (Forall2_items_ids _ _ Hn).
    apply (same_flag_ascending _ 1).
    + now apply StronglySorted_filter.
    + apply Forall_forall. intros r Hr. apply filter_In in Hr as [_ Hr].
      now apply Z.eqb_eq in Hr.
  - rewrite (Forall2_items_ids _ _ Hc).
    apply (same_flag_ascending _ 0).
    + now apply StronglySorted_filter.
    + apply Forall_forall. intros [meta p] Hr.
      apply filter_In in Hr as [Hin Hr].
      apply In_page_rows, In_main_query in Hin as [_ [_ Hp]].
      apply negb_true_iff, Z.eqb_neq in Hr. simpl in *.
      destruct (any_primary_binary db cats (Metadata.document_id meta) Hbin);
        congruence.
Qed.

End ListingOrder.

(** The byte-wise order of strings is a collation order. *)
Lemma leb_cases (s t : string) :
  String.leb s t = true <-> String_as_OT.lt s t \/ s = t.
Proof.
  unfold String.leb. rewrite <- String_as_OT.cmp_lt, <- String_as_OT.cmp_eq.
  unfold String_as_OT.cmp.
  destruct (String.compare s t); split; intros H; auto;
    try discriminate; destruct H; discriminate.
Qed.

Lemma leb_trans (s t u : string) :
  String.leb s t = true -> String.leb t u = true -> String.leb s u = true.
Proof.
  rewrite !leb_cases. intros [H1| ->] [H2| ->]; auto.
  left. eapply String_as_OT.lt_trans; eassumption.
Qed.

Lemma sample_store_binary : binary_flags sample_store.
Proof.
  unfold binary_flags. simpl.
  repeat (apply Forall_cons; [simpl; auto|]). apply Forall_nil.
Qed.

Lemma listing_new_first_ids_ascending_witness :
  binary_flags sample_store
  /\ exists listing,
       get_articles_for_month sample_taxonomy String.leb sample_store
         "expires" "cs" 2009 None 0 10 = Ok listing
       /\ exists news crosses,
            Listing.listings listing = (news ++ crosses)%list
            /\ Forall (fun item => ListingItem.listingType item = "new") news
            /\ Forall (fun item => ListingItem.listingType item = "cross")
                      crosses
            /\ ascending String.leb (map ListingItem.id news)
            /\ ascending String.leb (map ListingItem.id crosses).
Proof.
  split; [exact sample_store_binary|].
  eexists. split; [vm_compute; reflexivity|].
  apply (listing_new_first_ids_ascending String.leb String.leb_total leb_trans
           sample_taxonomy sample_store "expires" "cs" 2009 None
           0%nat 10%nat).
  - exact sample_store_binary.
  - vm_compute. reflexivity.
Defined.

(** With a flag other than 0 and 1 the rows of the second group are those
    flagged 2 followed by those flagged 0, so their ids need not ascend. *)
Lemma flag_two_breaks_cross_order :
  match get_articles_for_month sample_taxonomy String.leb
          {| documents := [Document.mk 1 "0903.0001";
                           Document.mk 2 "0903.0002"];
             document_categories := [DocumentCategory.mk 1 "cs.AI" 0;
                                     DocumentCategory.mk 2 "cs.AI" 2];
             metadata := [sample_record 1 "0903.0001" "cs.LG cs.AI" 1;
                          sample_record 2 "0903.0002" "cs.LG cs.AI" 1] |}
          "expires" "cs.AI" 2009 (Some 3) 0 10 with
  | Ok listing =>
      summary listing = [("0903.0002", "cross", "cs.LG");
                         ("0903.0001", "cross", "cs.LG")]
  | Raise _ => False
  end.
Proof. vm_compute. reflexivity. Qed.

(** * Further properties of the module *)

(** ** Alternate names and the categories of an archive *)

Lemma alias_loop_origin (c : string) (items : list (string * string)) :
  match alias_loop c items with
  | Some n => In (c, n) items \/ In (n, c) items
  | None => ~ In c (alias_names items)
  end.
Proof.
  induction items as [|[k v] items IH]; simpl; [tauto|].
  destruct (String.eqb_spec c k) as [->|Hk]; [auto|].
  destruct (String.eqb_spec c v) as [->|Hv]; [auto|].
  destruct (alias_loop c items) as [n|].
  - destruct IH; auto.
  - unfold alias_names in *. simpl. intros [H|H]; [congruence|].
    apply in_app_or in H as [H|[H|H]]; [| congruence |];
      apply IH, in_or_app; auto.
Qed.

Lemma subsumed_loop_origin (c : string) (items : list (string * string)) :
  match subsumed_loop c items with
  | Some n => In (n, c) items
  | None => ~ In c (map snd items)
  end.
Proof.
  induction items as [|[k v] items IH]; simpl; [tauto|].
  destruct (String.eqb_spec c v) as [->|Hv]; [auto|].
  destruct (subsumed_loop c items) as [n|]; [auto|].
  intros [H|H]; [congruence | auto].
Qed.

(** X2. The alternate name of a category is the other name of an alias
    pair that holds it; only a category that takes part in no alias pair
    gets the old name of a subsumed archive, and only when queried by the
    new name; a category found in neither dictionary has none. *)
Theorem alternate_name_origin (tx : Taxonomy) (c : string) :
  match _check_alternate_name tx c with
  | Some n =>
      In (c, n) (CATEGORY_ALIASES tx) \/ In (n, c) (CATEGORY_ALIASES tx)
      \/ (~ In c (alias_names (CATEGORY_ALIASES tx))
          /\ In (n, c) (ARCHIVES_SUBSUMED tx))
  | None =>
      ~ In c (alias_names (CATEGORY_ALIASES tx))
      /\ ~ In c (map snd (ARCHIVES_SUBSUMED tx))
  end.
Proof.
  unfold _check_alternate_name.
  pose proof (alias_loop_origin c (CATEGORY_ALIASES tx)) as Ha.
  pose proof (subsumed_loop_origin c (ARCHIVES_SUBSUMED tx)) as Hs.
  destruct (alias_loop c (CATEGORY_ALIASES tx)) as [n|]; [tauto|].
  destruct (subsumed_loop c (ARCHIVES_SUBSUMED tx)) as [n|]; tauto.
Qed.

(** X1. The list built for an archive holds exactly the categories whose
    [in_archive] is the archive and, for each of them, its non-empty
    alternate name. *)
Theorem archive_categories_exact (tx : Taxonomy) (archive x : string) :
  In x (get_categories_from_archive tx archive)
  <-> exists c,
        In (c, archive) (CATEGORIES tx)
        /\ (x = c \/ (_check_alternate_name tx c = Some x /\ x <> "")).
Proof.
  unfold get_categories_from_archive.
  induction (CATEGORIES tx) as [|[c a] items IH].
  - simpl. split; [tauto | intros [c [[] _]]].
  - rewrite archive_loop_cons.
    assert (In x (second_names tx c)
            <-> _check_alternate_name tx c = Some x /\ x <> "") as Hsec.
    { unfold second_names.
      destruct (_check_alternate_name tx c) as [n|]; simpl.
      - destruct n as [|ch n]; simpl.
        + split; [tauto | intros [[= <-] H]; congruence].
        + split.
          * intros [<-|[]]. split; [reflexivity | discriminate].
          * intros [[= <-] _]. now left.
      - split; [tauto | intros [H _]; discriminate]. }
    destruct (String.eqb_spec a archive) as [->|Ha].
    + rewrite in_app_iff, IH. simpl. rewrite Hsec. split.
      * intros [[<-|H]|[c' [Hin H]]].
        -- exists c. auto.
        -- exists c. auto.
        -- exists c'. auto.
      * intros [c' [[[= <- ]|Hin] Hx]].
        -- left. destruct Hx as [->|Hx]; auto.
        -- right. exists c'. auto.
    + rewrite IH. split.
      * intros [c' [Hin H]]. exists c'. simpl. auto.
      * intros [c' [[E|Hin] Hx]]; [congruence|].
        exists c'. auto.
Qed.

(** ** Pages of a listing *)

Lemma length_insert_row le r l :
  List.length (insert_row le r l) = S (List.length l).
Proof.
  induction l as [|x l IH]; simpl; [reflexivity|].
  destruct (row_leb le r x); simpl; [reflexivity | now rewrite IH].
Qed.

Lemma length_order_by le l : List.length (order_by le l) = List.length l.
Proof.
  induction l as [|r l IH]; [reflexivity|].
  unfold order_by in *. simpl. now rewrite length_insert_row, IH.
Qed.

Lemma length_page_rows le db year month skip show cats :
  List.length (page_rows le db year month skip show cats)
  = Nat.min show
      (List.length (main_query db (doc_ids db year month) cats) - skip).
Proof.
  unfold page_rows. now rewrite length_firstn, length_skipn, length_order_by.
Qed.

Lemma length_filter_split {A : Type} (p : A -> bool) (l : list A) :
  (List.length (filter p l) + List.length (filter (fun x => negb (p x)) l)
   = List.length l)%nat.
Proof.
  induction l as [|x l IH]; simpl; [reflexivity|].
  destruct (p x); simpl; lia.
Qed.

Lemma entries_length rows news crosses :
  _entries_into_listing_items rows = Ok (news, crosses) ->
  List.length (news ++ crosses) = List.length rows.
Proof.
  intros H. destruct (entries_partition _ _ _ H) as [Hn Hc].
  apply Forall2_length in Hn, Hc.
  rewrite length_app, <- Hn, <- Hc. apply length_filter_split.
Qed.

(** What a successful call returns, in terms of the page of rows. *)
Lemma get_articles_ok_inv tx le db gen_expires a year month skip show
    listing :
  get_articles_for_month tx le db gen_expires a year month skip show
  = Ok listing ->
  exists cats news crosses,
    _all_possible_categories tx a = Ok cats
    /\ _entries_into_listing_items
         (page_rows le db year month skip show cats) = Ok (news, crosses)
    /\ Listing.listings listing = (news ++ crosses)%list
    /\ Listing.count listing
       = Z.of_nat
           (List.length (main_query db (doc_ids db year month) cats)).
Proof.
  rewrite get_articles_for_month_unfold.
  destruct (_all_possible_categories tx a) as [cats|e]; [|discriminate].
  simpl.
  destruct (_entries_into_listing_items _) as [[news crosses]|e] eqn:El;
    [|discriminate].
  simpl. destruct (datetime _ _ _) as [date|e]; [|discriminate].
  simpl. intros [= <-]. exists cats, news, crosses. auto.
Qed.

(** X3. A returned page holds [min show (count - skip)] items, where
    [count] is the number of rows of the whole result; [count] is the same
    on every page of the same request. *)
Theorem page_size tx le db gen_expires a year month skip show listing :
  get_articles_for_month tx le db gen_expires a year month skip show
  = Ok listing ->
  0 <= Listing.count listing
  /\ List.length (Listing.listings listing)
     = Nat.min show (Z.to_nat (Listing.count listing) - skip)
  /\ forall skip' show' listing',
       get_articles_for_month tx le db gen_expires a year month skip' show'
       = Ok listing' ->
       Listing.count listing' = Listing.count listing.
Proof.
  intros H.
  destruct (get_articles_ok_inv _ _ _ _ _ _ _ _ _ _ H)
    as (cats & news & crosses & Hc & He & -> & ->).
  split; [lia|]. split.
  - rewrite (entries_length _ _ _ He), length_page_rows, Nat2Z.id.
    reflexivity.
  - intros skip' show' listing' H'.
    destruct (get_articles_ok_inv _ _ _ _ _ _ _ _ _ _ H')
      as (cats' & _ & _ & Hc' & _ & _ & ->).
    rewrite Hc in Hc'. now injection Hc' as <-.
Qed.

Lemma page_size_witness :
  exists listing,
    get_articles_for_month sample_taxonomy String.leb sample_store
      "expires" "cs" 2009 None 1 2 = Ok listing
    /\ 0 <= Listing.count listing
    /\ List.length (Listing.listings listing)
       = Nat.min 2 (Z.to_nat (Listing.count listing) - 1)
    /\ forall skip' show' listing',
         get_articles_for_month sample_taxonomy String.leb sample_store
           "expires" "cs" 2009 None skip' show' = Ok listing' ->
         Listing.count listing' = Listing.count listing.
Proof.
  eexists. split; [vm_compute; reflexivity|].
  apply (page_size sample_taxonomy String.leb sample_store "expires" "cs"
           2009 None 1%nat 2%nat).
  vm_compute. reflexivity.
Defined.

Lemma Forall2_functional {A B : Type} (f : A -> result B) (l : list A)
    (l1 l2 : list B) :
  Forall2 (fun x y => f x = Ok y) l l1 ->
  Forall2 (fun x y => f x = Ok y) l l2 -> l1 = l2.
Proof.
  intros H. revert l2. induction H as [|x y l l1 Hxy _ IH]; intros l2 H2;
    inversion H2 as [|? y' ? l2' Hxy' H2']; subst; [reflexivity|].
  rewrite Hxy in Hxy'. injection Hxy' as <-. f_equal. now apply IH.
Qed.

Lemma page_rows_app le db year month skip show1 show2 cats :
  page_rows le db year month skip (show1 + show2) cats
  = (page_rows le db year month skip show1 cats
     ++ page_rows le db year month (skip + show1) show2 cats)%list.
Proof.
  unfold page_rows.
  set (l := order_by le _).
  replace (skip + show1)%nat with (show1 + skip)%nat by lia.
  rewrite <- skipn_skipn. generalize (skipn skip l). clear l. intros l.
  revert l. induction show1 as [|n IH]; intros l; [reflexivity|].
  destruct l as [|x l]; simpl.
  - now rewrite firstn_nil.
  - now rewrite IH.
Qed.

Section Pagination.

Variable le : string -> string -> bool.
Hypothesis le_total : forall s t, le s t = true \/ le t s = true.
Hypothesis le_trans :
  forall s t u, le s t = true -> le t u = true -> le s u = true.

(** On rows in the order of the query, with flags 0 or 1, the rows flagged
    1 followed by the other rows are the rows themselves. *)
Lemma partition_of_sorted (rows : list (Metadata.t * Z)) :
  StronglySorted (row_le le) rows ->
  Forall (fun r => snd r = 0 \/ snd r = 1) rows ->
  (filter is_new rows ++ filter (fun r => negb (is_new r)) rows)%list = rows.
Proof.
  induction 1 as [|x l Hs IH Hx]; intros Hflag; [reflexivity|].
  inversion Hflag as [|? ? Hfx Hfl]; subst. simpl.
  destruct (is_new x) eqn:Ex; simpl.
  - now rewrite IH.
  - assert (Forall (fun r => is_new r = false) l) as Hold.
    { rewrite Forall_forall in *. intros y Hy.
      pose proof (Hx y Hy) as Hle. apply row_leb_cases in Hle.
      unfold is_new in *. apply Z.eqb_neq in Ex. apply Z.eqb_neq.
      destruct (Hfl y Hy); lia. }
    assert (filter is_new l = [] /\ filter (fun r => negb (is_new r)) l = l)
      as [E1 E2].
    { clear -Hold. induction Hold as [|y l Hy _ [I1 I2]]; [auto|].
      simpl. rewrite Hy. simpl. now rewrite I1, I2. }
    now rewrite E1, E2.
Qed.

Lemma page_rows_binary db year month skip show cats :
  binary_flags db ->
  Forall (fun r => snd r = 0 \/ snd r = 1)
         (page_rows le db year month skip show cats).
Proof.
  intros Hbin. apply Forall_forall. intros [meta p] Hin.
  apply In_page_rows, In_main_query in Hin as [_ [_ ->]].
  now apply any_primary_binary.
Qed.

(** The items of a returned listing are the items of the page's rows, in
    the order of the rows: the split into new and cross moves nothing. *)
Lemma listing_follows_rows tx db gen_expires a year month skip show listing :
  binary_flags db ->
  get_articles_for_month tx le db gen_expires a year month skip show
  = Ok listing ->
  exists cats,
    _all_possible_categories tx a = Ok cats
    /\ Forall2 (fun entry item => make_item entry = Ok item)
               (page_rows le db year month skip show cats)
               (Listing.listings listing).
Proof.
  intros Hbin H.
  destruct (get_articles_ok_inv _ _ _ _ _ _ _ _ _ _ H)
    as (cats & news & crosses & Hc & He & -> & _).
  exists cats. split; [exact Hc|].
  destruct (entries_partition _ _ _ He) as [Hn Hcr].
  rewrite <- (partition_of_sorted
                (page_rows le db year month skip show cats)).
  - now apply Forall2_app.
  - now apply page_rows_sorted.
  - now apply page_rows_binary.
Qed.

(** No two different rows tie in the order of the query: rows with the
    same flag have paper ids that the collation tells apart. *)
Definition no_ties (rows : list (Metadata.t * Z)) : Prop :=
  forall r1 r2,
    In r1 rows -> In r2 rows ->
    row_le le r1 r2 -> row_le le r2 r1 -> r1 = r2.

Lemma insert_row_permutation r l : Permutation (insert_row le r l) (r :: l).
Proof.
  induction l as [|x l IH]; simpl; [reflexivity|].
  destruct (row_leb le r x); [reflexivity|].
  rewrite IH. apply perm_swap.
Qed.

Lemma order_by_permutation l : Permutation (order_by le l) l.
Proof.
  induction l as [|r l IH]; [reflexivity|].
  unfold order_by in *. simpl. rewrite insert_row_permutation.
  now apply perm_skip.
Qed.

(** Without ties the order of the query admits one arrangement only. *)
Lemma sorted_arrangement_unique (l1 l2 : list (Metadata.t * Z)) :
  no_ties l1 -> Permutation l1 l2 ->
  StronglySorted (row_le le) l1 -> StronglySorted (row_le le) l2 ->
  l1 = l2.
Proof.
  revert l2. induction l1 as [|x l1 IH]; intros l2 Hties Hperm S1 S2.
  - apply Permutation_nil in Hperm. now subst.
  - destruct l2 as [|y l2];
      [apply Permutation_sym, Permutation_nil in Hperm; discriminate|].
    inversion S1 as [|? ? S1' F1]; subst.
    inversion S2 as [|? ? S2' F2]; subst.
    rewrite Forall_forall in F1, F2.
    assert (In x (y :: l2)) as Hx
      by (eapply Permutation_in; [exact Hperm | now left]).
    assert (In y (x :: l1)) as Hy
      by (eapply Permutation_in;
          [apply Permutation_sym; exact Hperm | now left]).
    assert (x = y) as E.
    { destruct Hx as [Hx|Hx]; [now subst|].
      destruct Hy as [Hy|Hy]; [now subst|].
      apply Hties; [now left | now right | now apply F1 | now apply F2]. }
    subst y. f_equal. apply IH.
    + intros r1 r2 H1 H2. apply Hties; now right.
    + eapply Permutation_cons_inv, Hperm.
    + exact S1'.
    + exact S2'.
Qed.

(** X4. Pages compose when no two rows tie in the order of the query (and
    the flags are 0 or 1): the order then admits one arrangement of the
    rows only, the one every page is cut from, and the listing of
    [show1 + show2] rows from [skip] is the listing of [show1] rows from
    [skip] followed by the listing of [show2] rows from [skip + show1]. *)
Theorem pages_compose tx db gen_expires a year month skip show1 show2
    cats whole first second :
  binary_flags db ->
  _all_possible_categories tx a = Ok cats ->
  no_ties (main_query db (doc_ids db year month) cats) ->
  get_articles_for_month tx le db gen_expires a year month skip
                         (show1 + show2) = Ok whole ->
  get_articles_for_month tx le db gen_expires a year month skip show1
  = Ok first ->
  get_articles_for_month tx le db gen_expires a year month (skip + show1)
                         show2 = Ok second ->
  (forall arrangement,
      Permutation arrangement (main_query db (doc_ids db year month) cats) ->
      StronglySorted (row_le le) arrangement ->
      arrangement
      = order_by le (main_query db (doc_ids db year month) cats))
  /\ Listing.listings whole
     = (Listing.listings first ++ Listing.listings second)%list.
Proof.
  intros Hbin Hres Hties Hw Hf Hs. split.
  - intros arrangement Hperm Hsorted.
    apply sorted_arrangement_unique.
    + intros r1 r2 H1 H2. apply Hties;
        eapply Permutation_in; eassumption.
    + rewrite Hperm. apply Permutation_sym, order_by_permutation.
    + exact Hsorted.
    + now apply order_by_sorted.
  - destruct (listing_follows_rows _ _ _ _ _ _ _ _ _ Hbin Hw)
      as (c & Hc & Fw).
    destruct (listing_follows_rows _ _ _ _ _ _ _ _ _ Hbin Hf)
      as (c1 & Hc1 & Ff).
    destruct (listing_follows_rows _ _ _ _ _ _ _ _ _ Hbin Hs)
      as (c2 & Hc2 & Fs).
    rewrite Hc in Hc1, Hc2. injection Hc1 as <-. injection Hc2 as <-.
    rewrite page_rows_app in Fw.
    eapply Forall2_functional; [exact Fw|].
    now apply Forall2_app.
Qed.

End Pagination.

Lemma sample_store_no_ties :
  no_ties String.leb
          (main_query sample_store (doc_ids sample_store 2009 None)
                      ["cs.AI"; "cs.LG"]).
Proof.
  intros r1 r2 H1 H2 L12 L21. unfold row_le in L12, L21.
  vm_compute in H1, H2.
  repeat (destruct H1 as [H1|H1]; [subst r1|]); try contradiction;
    repeat (destruct H2 as [H2|H2]; [subst r2|]); try contradiction;
    try reflexivity;
    try (vm_compute in L12; discriminate L12);
    vm_compute in L21; discriminate L21.
Qed.

Lemma pages_compose_witness :
  binary_flags sample_store
  /\ _all_possible_categories sample_taxonomy "cs" = Ok ["cs.AI"; "cs.LG"]
  /\ no_ties String.leb
             (main_query sample_store (doc_ids sample_store 2009 None)
                         ["cs.AI"; "cs.LG"])
  /\ exists whole first second,
       get_articles_for_month sample_taxonomy String.leb sample_store
         "expires" "cs" 2009 None 1 (1 + 2) = Ok whole
       /\ get_articles_for_month sample_taxonomy String.leb sample_store
            "expires" "cs" 2009 None 1 1 = Ok first
       /\ get_articles_for_month sample_taxonomy String.leb sample_store
            "expires" "cs" 2009 None (1 + 1) 2 = Ok second
       /\ (forall arrangement,
              Permutation arrangement
                (main_query sample_store (doc_ids sample_store 2009 None)
                            ["cs.AI"; "cs.LG"]) ->
              StronglySorted (row_le String.leb) arrangement ->
              arrangement
              = order_by String.leb
                  (main_query sample_store (doc_ids sample_store 2009 None)
                              ["cs.AI"; "cs.LG"]))
       /\ Listing.listings whole
          = (Listing.listings first ++ Listing.listings second)%list.
Proof.
  split; [exact sample_store_binary|].
  split; [reflexivity|].
  split; [exact sample_store_no_ties|].
  do 3 eexists.
  split; [vm_compute; reflexivity|].
  split; [vm_compute; reflexivity|].
  split; [vm_compute; reflexivity|].
  apply (pages_compose String.leb String.leb_total leb_trans sample_taxonomy
           sample_store "expires" "cs" 2009 None 1%nat 1%nat 2%nat
           ["cs.AI"; "cs.LG"]);
    [exact sample_store_binary | reflexivity | exact sample_store_no_ties
     | vm_compute; reflexivity ..].
Defined.

(** ** Which records a listing shows *)

(** The document has an identifier of the period. *)
Definition in_period (db : Store) (year : Z) (month : option Z) (d : Z)
  : Prop :=
  exists doc, In doc (documents db) /\ Document.document_id doc = d
              /\ era_filter year month (Document.paper_id doc) = true.

(** The document has an association with a category of the list. *)
Definition in_categories (db : Store) (cats : list string) (d : Z) : Prop :=
  exists dc, In dc (document_categories db)
             /\ DocumentCategory.document_id dc = d
             /\ In (DocumentCategory.category dc) cats.

Definition qualifies (db : Store) (year : Z) (month : option Z)
    (cats : list string) (meta : Metadata.t) : Prop :=
  In meta (metadata db) /\ Metadata.is_current meta = 1
  /\ in_period db year month (Metadata.document_id meta)
  /\ in_categories db cats (Metadata.document_id meta).

Lemma In_doc_ids db year month d :
  In d (doc_ids db year month) <-> in_period db year month d.
Proof.
  unfold doc_ids, in_period. rewrite in_map_iff. split.
  - intros [doc [E H]]. apply filter_In in H as [H1 H2]. eauto.
  - intros [doc [H1 [E H2]]]. exists doc. rewrite filter_In. auto.
Qed.

Lemma existsb_eqb_In (d : Z) (ids : list Z) :
  existsb (Z.eqb d) ids = true <-> In d ids.
Proof.
  rewrite existsb_exists. split.
  - intros [x [Hx E]]. apply Z.eqb_eq in E. now subst.
  - intros H. exists d. split; [exact H | apply Z.eqb_refl].
Qed.

Lemma In_cat_query_iff db ids cats d p :
  In (d, p) (cat_query db ids cats)
  <-> In d ids /\ in_categories db cats d /\ p = any_primary db cats d.
Proof.
  split.
  - intros H. pose proof (In_cat_query _ _ _ _ _ H) as Hp.
    unfold cat_query in H. apply in_map_iff in H as [d' [[= -> _] Hin]].
    apply nodup_In, in_map_iff in Hin as [dc [Ed Hdc]].
    unfold cat_rows in Hdc. apply filter_In in Hdc as [Hdc Hcat].
    apply filter_In in Hdc as [Hdc Hids]. rewrite Ed in Hids.
    apply existsb_eqb_In in Hids. apply mem_In in Hcat.
    repeat split; [exact Hids | exists dc; auto | exact Hp].
  - intros [Hids [[dc [Hdc [Ed Hcat]]] ->]].
    assert (existsb (Z.eqb d) ids = true) as Hex by now apply existsb_eqb_In.
    unfold cat_query. apply in_map_iff. exists d. split.
    + unfold any_primary. now rewrite cat_rows_of_document.
    + apply nodup_In, in_map_iff. exists dc. split; [exact Ed|].
      unfold cat_rows. rewrite !filter_In, Ed, mem_In. auto.
Qed.

(** The rows of the query are the current records of the documents of the
    period that have a category of the list, each with its flag. *)
Lemma main_query_rows db year month cats meta p :
  In (meta, p) (main_query db (doc_ids db year month) cats)
  <-> qualifies db year month cats meta
      /\ p = any_primary db cats (Metadata.document_id meta).
Proof.
  unfold main_query, qualifies. rewrite in_flat_map. split.
  - intros [[d q] [Hc H]].
    apply in_map_iff in H as [meta' [[= -> <-] H]].
    apply filter_In in H as [Hin Hb]. apply andb_prop in Hb as [Hd Hcur].
    simpl in Hd. apply Z.eqb_eq in Hd, Hcur. subst d.
    apply In_cat_query_iff in Hc as [Hids [Hcat Hp]].
    apply In_doc_ids in Hids. auto 10.
  - intros [[Hin [Hcur [Hper Hcat]]] ->].
    exists (Metadata.document_id meta,
            any_primary db cats (Metadata.document_id meta)).
    split.
    + apply In_cat_query_iff. rewrite In_doc_ids. auto.
    + apply in_map_iff. exists meta. split; [reflexivity|].
      apply filter_In. split; [exact Hin|]. simpl.
      now rewrite Z.eqb_refl, Hcur.
Qed.

Lemma Forall2_In_r {A B : Type} (R : A -> B -> Prop) (l : list A)
    (l' : list B) (y : B) :
  Forall2 R l l' -> In y l' -> exists x, In x l /\ R x y.
Proof.
  induction 1 as [|a b l l' Hab _ IH]; intros Hin; [destruct Hin|].
  destruct Hin as [<-|Hin]; [exists a; simpl; auto|].
  destruct (IH Hin) as [x [Hx Hr]]. exists x. simpl. auto.
Qed.

Lemma Forall2_In_l {A B : Type} (R : A -> B -> Prop) (l : list A)
    (l' : list B) (x : A) :
  Forall2 R l l' -> In x l -> exists y, In y l' /\ R x y.
Proof.
  induction 1 as [|a b l l' Hab _ IH]; intros Hin; [destruct Hin|].
  destruct Hin as [<-|Hin]; [exists b; simpl; auto|].
  destruct (IH Hin) as [y [Hy Hr]]. exists y. simpl. auto.
Qed.

(** An item of the two lists comes from a row, and every row gives one. *)
Lemma entries_items rows news crosses :
  _entries_into_listing_items rows = Ok (news, crosses) ->
  (forall item, In item (news ++ crosses) ->
                exists entry, In entry rows /\ make_item entry = Ok item)
  /\ (forall entry, In entry rows ->
                    exists item, In item (news ++ crosses)
                                 /\ make_item entry = Ok item).
Proof.
  intros H. destruct (entries_partition _ _ _ H) as [Hn Hc]. split.
  - intros item Hin. apply in_app_or in Hin as [Hin|Hin];
      [destruct (Forall2_In_r _ _ _ _ Hn Hin) as [e [He Hi]]
      |destruct (Forall2_In_r _ _ _ _ Hc Hin) as [e [He Hi]]];
      apply filter_In in He as [He _]; eauto.
  - intros entry Hin. destruct (is_new entry) eqn:E.
    + destruct (Forall2_In_l _ _ _ entry Hn) as [item [Hi Hm]].
      { apply filter_In. auto. }
      exists item. split; [apply in_or_app; now left | exact Hm].
    + destruct (Forall2_In_l _ _ _ entry Hc) as [item [Hi Hm]].
      { apply filter_In. rewrite E. auto. }
      exists item. split; [apply in_or_app; now right | exact Hm].
Qed.

Lemma listing_sound tx le db gen_expires a year month skip show listing
    cats item :
  get_articles_for_month tx le db gen_expires a year month skip show
  = Ok listing ->
  _all_possible_categories tx a = Ok cats ->
  In item (Listing.listings listing) ->
  exists meta,
    qualifies db year month cats meta
    /\ make_item (meta, any_primary db cats (Metadata.document_id meta))
       = Ok item.
Proof.
  intros H Hc Hin.
  destruct (get_articles_ok_inv _ _ _ _ _ _ _ _ _ _ H)
    as (cats' & news & crosses & Hc' & He & El & _).
  rewrite Hc in Hc'. injection Hc' as <-. rewrite El in Hin.
  destruct (proj1 (entries_items _ _ _ He) item Hin) as [[meta p] [Hr Hi]].
  apply In_page_rows, main_query_rows in Hr as [Hq ->]. eauto.
Qed.

Lemma listing_complete tx le db gen_expires a year month show listing
    cats meta :
  get_articles_for_month tx le db gen_expires a year month 0 show
  = Ok listing ->
  _all_possible_categories tx a = Ok cats ->
  Listing.count listing <= Z.of_nat show ->
  qualifies db year month cats meta ->
  exists item,
    In item (Listing.listings listing)
    /\ make_item (meta, any_primary db cats (Metadata.document_id meta))
       = Ok item.
Proof.
  intros H Hc Hshow Hq.
  destruct (get_articles_ok_inv _ _ _ _ _ _ _ _ _ _ H)
    as (cats' & news & crosses & Hc' & He & El & Ecount).
  rewrite Hc in Hc'. injection Hc' as <-. rewrite El.
  apply (proj2 (entries_items _ _ _ He)).
  unfold page_rows. rewrite skipn_O, firstn_all2.
  - apply In_order_by, main_query_rows. auto.
  - rewrite length_order_by. lia.
Qed.

(** X5. Every item of a returned listing is made from a current record of
    a document of the period that has a category of the resolved list; and
    the page that takes the whole result ([skip = 0], [count <= show]) has
    an item for every such record. *)
Theorem listing_shows_qualifying_records tx le db gen_expires a year month
    skip show listing :
  get_articles_for_month tx le db gen_expires a year month skip show
  = Ok listing ->
  exists cats,
    _all_possible_categories tx a = Ok cats
    /\ (forall item,
           In item (Listing.listings listing) ->
           exists meta,
             qualifies db year month cats meta
             /\ make_item
                  (meta, any_primary db cats (Metadata.document_id meta))
                = Ok item)
    /\ (skip = 0%nat -> Listing.count listing <= Z.of_nat show ->
        forall meta,
          qualifies db year month cats meta ->
          exists item,
            In item (Listing.listings listing)
            /\ make_item
                 (meta, any_primary db cats (Metadata.document_id meta))
               = Ok item).
Proof.
  intros H.
  destruct (get_articles_ok_inv _ _ _ _ _ _ _ _ _ _ H)
    as (cats & _ & _ & Hc & _).
  exists cats. split; [exact Hc|]. split.
  - intros item. now apply (listing_sound _ _ _ _ _ _ _ _ _ _ _ _ H Hc).
  - intros -> Hshow meta.
    now apply (listing_complete _ _ _ _ _ _ _ _ _ _ _ H Hc Hshow).
Qed.

Lemma listing_shows_qualifying_records_witness :
  exists listing,
    get_articles_for_month sample_taxonomy String.leb sample_store
      "expires" "cs.AI" 2009 (Some 3) 0 10 = Ok listing
    /\ exists cats,
         _all_possible_categories sample_taxonomy "cs.AI" = Ok cats
         /\ (forall item,
                In item (Listing.listings listing) ->
                exists meta,
                  qualifies sample_store 2009 (Some 3) cats meta
                  /\ make_item
                       (meta, any_primary sample_store cats
                                (Metadata.document_id meta))
                     = Ok item)
         /\ (0%nat = 0%nat -> Listing.count listing <= Z.of_nat 10 ->
             forall meta,
               qualifies sample_store 2009 (Some 3) cats meta ->
               exists item,
                 In item (Listing.listings listing)
                 /\ make_item
                      (meta, any_primary sample_store cats
                               (Metadata.document_id meta))
                    = Ok item).
Proof.
  eexists. split; [vm_compute; reflexivity|].
  apply (listing_shows_qualifying_records sample_taxonomy String.leb
           sample_store "expires" "cs.AI" 2009 (Some 3) 0%nat 10%nat).
  vm_compute. reflexivity.
Defined.

(** ** A month within its year *)

Lemma new_format_month_year year m pid :
  new_format_match (period_token year (Some m)) pid ->
  new_format_match (period_token year None) pid.
Proof.
  intros [rest ->]. exists (format_02d m ++ rest). simpl.
  apply append_assoc.
Qed.

Lemma old_format_month_year year m pid :
  old_format_match (period_token year (Some m)) pid ->
  old_format_match (period_token year None) pid.
Proof.
  intros [before [rest ->]]. exists before, (format_02d m ++ rest). simpl.
  now rewrite append_assoc.
Qed.

(** An identifier accepted for a month of a year is accepted for the year. *)
Lemma era_filter_month_year year m pid :
  era_filter year (Some m) pid = true -> era_filter year None pid = true.
Proof.
  destruct (Z.eq_dec m 0) as [->|Hm]; [trivial|].
  rewrite !era_filter_unfold by congruence.
  pose proof (startswith_token_iff year (Some m) pid) as N1.
  pose proof (startswith_token_iff year None pid) as N2.
  pose proof (like_slash_token_iff year (Some m) pid) as O1.
  pose proof (like_slash_token_iff year None pid) as O2.
  pose proof (new_format_month_year year m pid) as HN.
  pose proof (old_format_month_year year m pid) as HO.
  destruct (year >? 2007); [tauto|].
  destruct (year <? 2007); [tauto|].
  rewrite !orb_true_iff. tauto.
Qed.

Lemma qualifies_month_year db year m cats meta :
  qualifies db year (Some m) cats meta -> qualifies db year None cats meta.
Proof.
  intros (Hin & Hcur & (doc & Hd & Ed & Hf) & Hcat).
  repeat split; try assumption.
  exists doc. repeat split; try assumption.
  now apply era_filter_month_year in Hf.
Qed.

(** X6. Every item of a monthly listing is an item of the listing of the
    year, when that one takes the whole result. *)
Theorem monthly_items_in_yearly tx le db gen_expires a year m skip show
    show' monthly yearly :
  get_articles_for_month tx le db gen_expires a year (Some m) skip show
  = Ok monthly ->
  get_articles_for_month tx le db gen_expires a year None 0 show'
  = Ok yearly ->
  Listing.count yearly <= Z.of_nat show' ->
  forall item,
    In item (Listing.listings monthly) -> In item (Listing.listings yearly).
Proof.
  intros Hm Hy Hshow item Hin.
  destruct (get_articles_ok_inv _ _ _ _ _ _ _ _ _ _ Hm)
    as (cats & _ & _ & Hc & _).
  destruct (listing_sound _ _ _ _ _ _ _ _ _ _ _ _ Hm Hc Hin)
    as [meta [Hq Hitem]].
  apply qualifies_month_year in Hq.
  destruct (listing_complete _ _ _ _ _ _ _ _ _ _ _ Hy Hc Hshow Hq)
    as [item' [Hin' Hitem']].
  rewrite Hitem in Hitem'. now injection Hitem' as <-.
Qed.

Lemma monthly_items_in_yearly_witness :
  exists monthly yearly,
    get_articles_for_month sample_taxonomy String.leb sample_store
      "expires" "cs" 2009 (Some 3) 1 2 = Ok monthly
    /\ get_articles_for_month sample_taxonomy String.leb sample_store
         "expires" "cs" 2009 None 0 10 = Ok yearly
    /\ Listing.count yearly <= Z.of_nat 10
    /\ forall item,
         In item (Listing.listings monthly) ->
         In item (Listing.listings yearly).
Proof.
  do 2 eexists.
  split; [vm_compute; reflexivity|].
  split; [vm_compute; reflexivity|].
  split; [vm_compute; discriminate|].
  apply (monthly_items_in_yearly sample_taxonomy String.leb sample_store
           "expires" "cs" 2009 3 1%nat 2%nat 10%nat);
    [vm_compute; reflexivity | vm_compute; reflexivity
     | vm_compute; discriminate].
Defined.

(** ** From the monthly filter to the month of the yearly counts *)

Lemma int_format_02d (n : Z) : 0 <= n < 100 -> int (format_02d n) = Ok n.
Proof.
  intros Hn.
  assert (forallb (fun k => match int_literal (format_02d (Z.of_nat k)) with
                            | Some v => v =? Z.of_nat k
                            | None => false
                            end) (seq 0 100) = true) as Hall
    by (vm_compute; reflexivity).
  rewrite forallb_forall in Hall.
  specialize (Hall (Z.to_nat n)). rewrite Z2Nat.id in Hall by lia.
  unfold int. destruct (int_literal (format_02d n)) as [v|].
  - f_equal. apply Z.eqb_eq, Hall, in_seq. lia.
  - discriminate Hall. apply in_seq. lia.
Qed.

Lemma no_slash_format_02d (n : Z) :
  0 <= n < 100 -> has_char "/" (format_02d n) = false.
Proof.
  intros Hn.
  assert (forallb (fun k => negb (has_char "/" (format_02d (Z.of_nat k))))
                  (seq 0 100) = true) as Hall by (vm_compute; reflexivity).
  rewrite forallb_forall in Hall.
  specialize (Hall (Z.to_nat n)). rewrite Z2Nat.id in Hall by lia.
  apply negb_true_iff, Hall, in_seq. lia.
Qed.

Lemma has_char_app (d : ascii) (a b : string) :
  has_char d (a ++ b) = has_char d a || has_char d b.
Proof.
  induction a as [|c a IH]; simpl; [reflexivity|].
  now rewrite IH, orb_assoc.
Qed.

Lemma substring_head (b rest : string) :
  substring 0 (String.length b) (b ++ rest) = b.
Proof.
  induction b as [|c b IH]; simpl; [now destruct rest | now rewrite IH].
Qed.

Lemma substring_after (a b rest : string) :
  substring (String.length a) (String.length b) (a ++ b ++ rest) = b.
Proof.
  induction a as [|c a IH]; simpl; [apply substring_head | exact IH].
Qed.

Lemma substring_index_last_app (before s : string) (d : ascii) :
  has_char d s = false ->
  substring_index_last (before ++ String d s) d = s.
Proof.
  intros Hs. induction before as [|c before IH]; simpl.
  - now rewrite Hs, Ascii.eqb_refl.
  - rewrite has_char_app. simpl. rewrite Ascii.eqb_refl, orb_true_r.
    simpl. exact IH.
Qed.

Lemma In_length_pos {A : Type} (x : A) (l : list A) :
  In x l -> 1 <= Z.of_nat (List.length l).
Proof. destruct l; simpl; [tauto | lia]. Qed.

(** Every record of the grouped rows has a row for its month, which counts
    it in its class. *)
Lemma group_counts_row archive month_of rows rec :
  In rec rows ->
  exists row,
    In row (group_counts archive month_of rows)
    /\ CountRow.month row = month_of rec
    /\ (categorization_case archive rec = "new" ->
        1 <= CountRow.count_new row)
    /\ (categorization_case archive rec = "cross" ->
        1 <= CountRow.count_cross row).
Proof.
  intros Hin. unfold group_counts.
  eexists. split.
  - apply in_map_iff. exists (month_of rec). split; [reflexivity|].
    apply nodup_In, in_map, Hin.
  - simpl. split; [reflexivity|].
    assert (forall label,
               categorization_case archive rec = label ->
               1 <= count_distinct archive label
                      (filter (fun m => (month_of m =? month_of rec)%string)
                              rows)) as Hcount.
    { intros label E. unfold count_distinct.
      apply (In_length_pos (Metadata.paper_id rec)), nodup_In, in_map.
      rewrite !filter_In, E, !String.eqb_refl. auto. }
    split; apply Hcount.
Qed.

(** X7. A record whose identifier passes the monthly filter of the new
    format, [startswith(YYMM)], has a row in the yearly query of the new
    format whose month reads as that month and which counts the record in
    its class; so has, in the query of the old format, a record whose
    identifier is [.../YYMM...] with no later slash. *)
Theorem filtered_record_is_counted_in_its_month (table : list Metadata.t)
    (archive : string) (year m : Z) (rec : Metadata.t) :
  1 <= m <= 12 -> In rec table ->
  (startswith (Metadata.paper_id rec)
              (format_02d (year mod 100) ++ format_02d m) = true ->
   exists row,
     In row (count_query_new_id archive year table)
     /\ int (CountRow.month row) = Ok m
     /\ (categorization_case archive rec = "new" ->
         1 <= CountRow.count_new row)
     /\ (categorization_case archive rec = "cross" ->
         1 <= CountRow.count_cross row))
  /\ (forall before rest,
         Metadata.paper_id rec
         = before ++ "/" ++ format_02d (year mod 100) ++ format_02d m
                  ++ rest ->
         has_char "/" rest = false ->
         like ("%/" ++ format_02d (year mod 100) ++ format_02d m ++ "%")
              (Metadata.paper_id rec) = true
         /\ exists row,
              In row (count_query_old_id archive year table)
              /\ int (CountRow.month row) = Ok m
              /\ (categorization_case archive rec = "new" ->
                  1 <= CountRow.count_new row)
              /\ (categorization_case archive rec = "cross" ->
                  1 <= CountRow.count_cross row)).
Proof.
  intros Hm Hin.
  assert (0 <= year mod 100 < 100) as Hy by (apply Z.mod_pos_bound; lia).
  pose proof (format_02d_width _ Hy) as Wy.
  assert (String.length (format_02d m) = 2%nat) as Wm
    by (apply format_02d_width; lia).
  pose proof (literal_period_token year (Some m)) as Lym.
  pose proof (literal_period_token year None) as Ly.
  simpl in Lym, Ly.
  split.
  - intros Hstart. apply like_prefix_iff in Hstart as [rest E]; [|exact Lym].
    rewrite append_assoc in E.
    destruct (group_counts_row archive
                (fun r => substr (Metadata.paper_id r) 3 2)
                (filter (fun r => startswith (Metadata.paper_id r)
                                             (format_02d (year mod 100)))
                        table) rec) as (row & Hrow & Emonth & Hcounts).
    { apply filter_In. split; [exact Hin|].
      apply like_prefix_iff; [exact Ly|]. eauto. }
    exists row. split; [exact Hrow|]. split; [|exact Hcounts].
    rewrite Emonth, E. unfold substr. simpl Nat.sub.
    rewrite <- Wy at 1. rewrite <- Wm at 1.
    rewrite substring_after. apply int_format_02d. lia.
  - intros before rest E Hrest.
    assert (forall tok suffix,
               literal tok = true ->
               Metadata.paper_id rec = before ++ "/" ++ tok ++ suffix ->
               like ("%/" ++ tok ++ "%") (Metadata.paper_id rec) = true)
      as Hlike.
    { intros tok suffix Lt Et.
      change ("%/" ++ tok ++ "%") with ("%" ++ ("/" ++ tok) ++ "%").
      apply like_infix_iff; [exact Lt|]. exists before, suffix. exact Et. }
    split.
    { rewrite <- (append_assoc (format_02d (year mod 100)) (format_02d m)
                               "%").
      apply (Hlike _ rest); [exact Lym|]. now rewrite append_assoc. }
    destruct (group_counts_row archive
                (fun r => substr (substring_index_last
                                    (Metadata.paper_id r) "/") 3 2)
                (filter (fun r => like ("%/" ++ format_02d (year mod 100)
                                             ++ "%") (Metadata.paper_id r))
                        table) rec) as (row & Hrow & Emonth & Hcounts).
    { apply filter_In. split; [exact Hin|].
      now apply (Hlike _ (format_02d m ++ rest)). }
    exists row. split; [exact Hrow|]. split; [|exact Hcounts].
    rewrite Emonth, E.
    change (before ++ "/" ++ format_02d (year mod 100) ++ format_02d m
                   ++ rest)
      with (before ++ String "/" (format_02d (year mod 100) ++ format_02d m
                                             ++ rest)).
    rewrite substring_index_last_app.
    + unfold substr. simpl Nat.sub.
      rewrite <- Wy at 1. rewrite <- Wm at 1.
      rewrite substring_after. apply int_format_02d. lia.
    + rewrite !has_char_app, !no_slash_format_02d, Hrest by lia.
      reflexivity.
Qed.

Lemma filtered_record_is_counted_in_its_month_witness :
  1 <= 4 <= 12
  /\ In (sample_record 4 "0704.0001" "math.AG" 1) sample_table
  /\ (startswith "0704.0001" (format_02d (2007 mod 100) ++ format_02d 4)
      = true ->
      exists row,
        In row (count_query_new_id "math." 2007 sample_table)
        /\ int (CountRow.month row) = Ok 4
        /\ (categorization_case "math."
              (sample_record 4 "0704.0001" "math.AG" 1) = "new" ->
            1 <= CountRow.count_new row)
        /\ (categorization_case "math."
              (sample_record 4 "0704.0001" "math.AG" 1) = "cross" ->
            1 <= CountRow.count_cross row)).
Proof.
  split; [lia|]. split; [simpl; auto 10|].
  apply (filtered_record_is_counted_in_its_month sample_table "math." 2007 4
           (sample_record 4 "0704.0001" "math.AG" 1));
    [lia | simpl; auto 10].
Defined.

(** An identifier with a later slash passes the filter of the old format
    but its month, read after the last slash, is not a number. *)
Lemma later_slash_month_unreadable :
  like ("%/" ++ format_02d (1999 mod 100) ++ "%") "hep-th/9901/x" = true
  /\ _get_yearly_article_counts_old_id
       [sample_record 1 "hep-th/9901/x" "hep-th" 1] "hep-th" 1999
     = Raise ValueError.
Proof. split; reflexivity. Qed.

(** ** Outcome of the month loop *)

Definition sum_count_new (rows : list CountRow.t) : Z :=
  fold_right Z.add 0 (map CountRow.count_new rows).

Definition sum_count_cross (rows : list CountRow.t) : Z :=
  fold_right Z.add 0 (map CountRow.count_cross rows).

(** The months the loop can write: those that read as a number from -11 to
    12; a number below 1 is written through a negative index. *)
Definition month_writable (entry : CountRow.t) : Prop :=
  exists m, int (CountRow.month entry) = Ok m /\ -11 <= m <= 12.

Definition labels (months : list MonthCount.t) : list (Z * Z) :=
  map (fun mc => (MonthCount.year mc, MonthCount.month mc)) months.

Lemma labels_update months k entry :
  labels (update months k (set_counts entry)) = labels months.
Proof.
  unfold labels. revert k.
  induction months as [|mc months IH]; intros [|k]; simpl; try reflexivity.
  now rewrite IH.
Qed.

Lemma py_index_twelve {A : Type} (l : list A) (i : Z) :
  List.length l = 12%nat ->
  (-12 <= i < 12 /\ exists k, py_index l i = Ok k)
  \/ (~ -12 <= i < 12 /\ py_index l i = Raise IndexError).
Proof.
  intros Hlen. unfold py_index. rewrite Hlen.
  destruct ((0 <=? i) && (i <? Z.of_nat 12)) eqn:E1.
  - left. apply andb_prop in E1 as [H1 H2].
    apply Z.leb_le in H1. apply Z.ltb_lt in H2. split; [lia | eauto].
  - destruct ((- Z.of_nat 12 <=? i) && (i <? 0)) eqn:E2.
    + left. apply andb_prop in E2 as [H1 H2].
      apply Z.leb_le in H1. apply Z.ltb_lt in H2. split; [lia | eauto].
    + right. split; [|reflexivity].
      apply andb_false_iff in E1, E2.
      rewrite Z.leb_gt, Z.ltb_ge in E1, E2. lia.
Qed.

Lemma process_loop_outcome (rows : list CountRow.t) :
  forall monthlist new_total cross_total,
    List.length monthlist = 12%nat ->
    match process_loop rows (monthlist, new_total, cross_total) with
    | Ok (monthlist', new_total', cross_total') =>
        Forall month_writable rows
        /\ List.length monthlist' = 12%nat
        /\ labels monthlist' = labels monthlist
        /\ new_total' = new_total + sum_count_new rows
        /\ cross_total' = cross_total + sum_count_cross rows
    | Raise e =>
        ~ Forall month_writable rows /\ (e = ValueError \/ e = IndexError)
    end.
Proof.
  induction rows as [|entry rows IH]; intros ml nt ct Hlen.
  - simpl. repeat split; auto; unfold sum_count_new, sum_count_cross;
      simpl; lia.
  - cbn [process_loop]. unfold int at 1.
    destruct (int_literal (CountRow.month entry)) as [m|] eqn:Em;
      cbn [bind].
    + destruct (py_index_twelve ml (m - 1) Hlen) as [[Hm [k Ek]]|[Hm Ek]];
        rewrite Ek; cbn [bind].
      * specialize (IH (update ml k (set_counts entry))
                       (nt + CountRow.count_new entry)
                       (ct + CountRow.count_cross entry)).
        rewrite length_update in IH. specialize (IH Hlen).
        destruct (process_loop rows _) as [[[ml' nt'] ct']|e].
        -- destruct IH as (Hall & Hl & Hlab & Hn & Hc).
           rewrite labels_update in Hlab.
           unfold sum_count_new, sum_count_cross in *. simpl.
           repeat split; try assumption; try lia.
           constructor; [|exact Hall].
           exists m. unfold int. rewrite Em. split; [reflexivity | lia].
        -- destruct IH as [Hall He]. split; [|exact He].
           intros H. apply Hall. now inversion H.
      * split; [|now right]. intros H. inversion H as [|? ? [m' [E Hr]] _].
        unfold int in E. rewrite Em in E. injection E as <-. lia.
    + split; [|now left]. intros H. inversion H as [|? ? [m' [E Hr]] _].
      unfold int in E. rewrite Em in E. discriminate.
Qed.

(** X8. The year count is built exactly when every month of the query
    result reads as a number from -11 to 12; otherwise the call raises
    [ValueError] or [IndexError].  A year count that is built has the
    twelve months 1..12 of the year in order, and its totals are the sums of
    the counts of all the rows. *)
Theorem process_outcome (rows : list CountRow.t) (year : Z) :
  match _process_yearly_article_counts rows year with
  | Ok yc =>
      Forall month_writable rows
      /\ YearCount.year yc = year
      /\ labels (YearCount.by_month yc)
         = map (fun i => (year, i)) months_1_12
      /\ YearCount.new_count yc = sum_count_new rows
      /\ YearCount.cross_count yc = sum_count_cross rows
  | Raise e =>
      ~ Forall month_writable rows /\ (e = ValueError \/ e = IndexError)
  end.
Proof.
  unfold _process_yearly_article_counts.
  pose proof (process_loop_outcome rows
                (map (fun i => MonthCount.mk year i 0 0) months_1_12) 0 0
                eq_refl) as H.
  destruct (process_loop rows _) as [[[ml nt] ct]|e]; cbn [bind].
  - destruct H as (Hall & _ & Hlab & Hn & Hc). simpl.
    repeat split; try assumption; try lia.
  - exact H.
Qed.

(** ** Outcome of the merge *)

Lemma getitem_outcome {A : Type} (l : list A) (i : Z) :
  0 <= i ->
  match getitem l i with
  | Ok x => i < Z.of_nat (List.length l)
  | Raise e => e = IndexError /\ Z.of_nat (List.length l) <= i
  end.
Proof.
  intros Hi. unfold getitem, py_index.
  destruct (Z.leb_spec 0 i); [|lia].
  destruct (Z.ltb_spec i (Z.of_nat (List.length l))); simpl.
  - destruct (nth_error l (Z.to_nat i)) eqn:E; [assumption|].
    apply nth_error_None in E. lia.
  - destruct (Z.ltb_spec i 0); [lia|]. rewrite andb_false_r. simpl. auto.
Qed.

Lemma combine_loop_outcome (yc1 yc2 : YearCount.t) (range : list Z) :
  Forall (fun i => 1 <= i) range ->
  match combine_loop yc1 yc2 range with
  | Ok months =>
      List.length months = List.length range
      /\ Forall (fun i =>
                   i <= Z.of_nat (List.length (YearCount.by_month yc1))
                   /\ i <= Z.of_nat (List.length (YearCount.by_month yc2)))
                range
  | Raise e =>
      e = IndexError
      /\ Exists (fun i =>
                   Z.of_nat (List.length (YearCount.by_month yc1)) < i
                   \/ Z.of_nat (List.length (YearCount.by_month yc2)) < i)
                range
  end.
Proof.
  induction 1 as [|i range Hi _ IH]; [simpl; auto|].
  cbn [combine_loop].
  pose proof (getitem_outcome (YearCount.by_month yc1) (i - 1)) as G1.
  pose proof (getitem_outcome (YearCount.by_month yc2) (i - 1)) as G2.
  destruct (getitem (YearCount.by_month yc1) (i - 1)) as [m1|e1];
    cbn [bind].
  - destruct (getitem (YearCount.by_month yc2) (i - 1)) as [m2|e2];
      cbn [bind].
    + destruct (combine_loop yc1 yc2 range) as [months|e]; cbn [bind].
      * destruct IH as [Hl Hall]. simpl. split; [now rewrite Hl|].
        constructor; [lia | exact Hall].
      * destruct IH as [-> Hex]. split; [reflexivity|].
        now apply Exists_cons_tl.
    + destruct G2 as [-> G2]; [lia|]. split; [reflexivity|].
      apply Exists_cons_hd. lia.
  - destruct G1 as [-> G1]; [lia|]. split; [reflexivity|].
    apply Exists_cons_hd. lia.
Qed.

Definition with_months (yc : YearCount.t) (months : list MonthCount.t)
  : YearCount.t :=
  YearCount.mk (YearCount.year yc) (YearCount.new_count yc)
               (YearCount.cross_count yc) months.

(** X9. The merge returns exactly when both operands have twelve months
    or more, and raises [IndexError] when one has fewer; months after the
    twelfth change nothing. *)
Theorem combine_outcome (yc1 yc2 : YearCount.t) :
  match _combine_yearly_article_counts yc1 yc2 with
  | Ok yc =>
      (12 <= List.length (YearCount.by_month yc1))%nat
      /\ (12 <= List.length (YearCount.by_month yc2))%nat
      /\ List.length (YearCount.by_month yc) = 12%nat
  | Raise e =>
      e = IndexError
      /\ ((List.length (YearCount.by_month yc1) < 12)%nat
          \/ (List.length (YearCount.by_month yc2) < 12)%nat)
  end
  /\ ((12 <= List.length (YearCount.by_month yc1))%nat ->
      (12 <= List.length (YearCount.by_month yc2))%nat ->
      forall more1 more2,
        _combine_yearly_article_counts
          (with_months yc1 (YearCount.by_month yc1 ++ more1))
          (with_months yc2 (YearCount.by_month yc2 ++ more2))
        = _combine_yearly_article_counts yc1 yc2).
Proof.
  split.
  - unfold _combine_yearly_article_counts.
    assert (Forall (fun i => 1 <= i) months_1_12) as Hr
      by (repeat constructor; lia).
    pose proof (combine_loop_outcome yc1 yc2 months_1_12 Hr) as H.
    destruct (combine_loop yc1 yc2 months_1_12) as [months|e]; cbn [bind].
    + destruct H as [Hl Hall]. simpl.
      assert (12 <= Z.of_nat (List.length (YearCount.by_month yc1))
              /\ 12 <= Z.of_nat (List.length (YearCount.by_month yc2)))
        as H12.
      { rewrite Forall_forall in Hall. apply (Hall 12).
        unfold months_1_12. simpl. auto 20. }
      repeat split; try lia. exact Hl.
    + destruct H as [-> Hex]. split; [reflexivity|].
      apply Exists_exists in Hex as [i [Hi Hlt]].
      assert (i <= 12) by (unfold months_1_12 in Hi; simpl in Hi;
                           intuition lia).
      lia.
  - intros H1 H2 more1 more2.
    destruct (twelve_entries _ H1)
      as (a1 & a2 & a3 & a4 & a5 & a6 & a7 & a8 & a9 & a10 & a11 & a12
          & r1 & E1).
    destruct (twelve_entries _ H2)
      as (b1 & b2 & b3 & b4 & b5 & b6 & b7 & b8 & b9 & b10 & b11 & b12
          & r2 & E2).
    unfold _combine_yearly_article_counts, with_months, months_1_12.
    cbn [combine_loop YearCount.by_month YearCount.year
         YearCount.new_count YearCount.cross_count].
    rewrite E1, E2. cbn [app]. repeat read_getitem. reflexivity.
Qed.

(** ** The year of the two formats *)

(** X10. For 2007 the call fails only when one of the two era counts
    fails, with that error; otherwise it returns the merge: the year and
    month labels of 2007, totals that are the sums of the two era totals,
    and in each month the sums of the two era values. *)
Theorem boundary_year_is_sum (table : list Metadata.t) (archive : string) :
  let a := canonical_archive archive in
  match _get_yearly_article_counts_old_id table a 2007,
        _get_yearly_article_counts_new_id table a 2007 with
  | Ok yo, Ok yn =>
      exists yc,
        get_yearly_article_counts table archive 2007 = Ok yc
        /\ YearCount.year yc = 2007
        /\ YearCount.new_count yc
           = YearCount.new_count yn + YearCount.new_count yo
        /\ YearCount.cross_count yc
           = YearCount.cross_count yn + YearCount.cross_count yo
        /\ labels (YearCount.by_month yc)
           = map (fun i => (2007, i)) months_1_12
        /\ map MonthCount.new (YearCount.by_month yc)
           = map (fun p => MonthCount.new (fst p) + MonthCount.new (snd p))
                 (combine (YearCount.by_month yn) (YearCount.by_month yo))
        /\ map MonthCount.cross (YearCount.by_month yc)
           = map (fun p => MonthCount.cross (fst p)
                           + MonthCount.cross (snd p))
                 (combine (YearCount.by_month yn) (YearCount.by_month yo))
  | Raise e, _ => get_yearly_article_counts table archive 2007 = Raise e
  | Ok _, Raise e => get_yearly_article_counts table archive 2007 = Raise e
  end.
Proof.
  intros a. unfold get_yearly_article_counts. fold a. simpl.
  unfold _get_yearly_article_counts_old_id,
    _get_yearly_article_counts_new_id, _process_yearly_article_counts.
  pose proof (process_loop_outcome (count_query_old_id a 2007 table)
                (map (fun i => MonthCount.mk 2007 i 0 0) months_1_12) 0 0
                eq_refl) as Ho.
  pose proof (process_loop_outcome (count_query_new_id a 2007 table)
                (map (fun i => MonthCount.mk 2007 i 0 0) months_1_12) 0 0
                eq_refl) as Hn.
  destruct (process_loop (count_query_old_id a 2007 table) _)
    as [[[mo nto] cto]|e]; cbn [bind]; [|reflexivity].
  destruct (process_loop (count_query_new_id a 2007 table) _)
    as [[[mn ntn] ctn]|e]; cbn [bind]; [|reflexivity].
  destruct Ho as (_ & Lo & _). destruct Hn as (_ & Ln & _).
  do 12 (destruct mo as [|? mo]; [discriminate|]).
  destruct mo; [|discriminate].
  do 12 (destruct mn as [|? mn]; [discriminate|]).
  destruct mn; [|discriminate].
  eexists. split; [reflexivity|]. repeat split.
Qed.

(** ** Identifiers that carry a month of the calendar *)

(** The month expression of every record is a two-digit month 01..12. *)
Definition calendar_months (month_of : Metadata.t -> string)
    (rows : list Metadata.t) : Prop :=
  Forall (fun rec => exists m, 1 <= m <= 12 /\ month_of rec = format_02d m)
         rows.

Lemma group_counts_months_ok archive month_of rows :
  calendar_months month_of rows ->
  months_ok (group_counts archive month_of rows).
Proof.
  intros Hcal. unfold calendar_months in Hcal. rewrite Forall_forall in Hcal.
  assert (forall k, In k (nodup string_dec (map month_of rows)) ->
                    exists m, 1 <= m <= 12 /\ k = format_02d m) as Hkeys.
  { intros k Hk. apply nodup_In, in_map_iff in Hk as [rec [<- Hin]].
    now apply Hcal. }
  unfold months_ok, group_counts. split.
  - apply Forall_forall. intros row Hrow.
    apply in_map_iff in Hrow as [k [<- Hk]].
    destruct (Hkeys k Hk) as [m [Hm ->]]. exists m. simpl.
    split; [apply int_format_02d; lia | exact Hm].
  - rewrite map_map. simpl.
    apply NoDup_map_NoDup_ForallPairs; [|apply NoDup_nodup].
    intros k1 k2 H1 H2 E.
    destruct (Hkeys k1 H1) as [m1 [Hm1 ->]].
    destruct (Hkeys k2 H2) as [m2 [Hm2 ->]].
    rewrite !int_format_02d in E by lia. now injection E as ->.
Qed.

Lemma calendar_months_filter month_of (p : Metadata.t -> bool) table :
  Forall (fun rec => p rec = true ->
                     exists m, 1 <= m <= 12 /\ month_of rec = format_02d m)
         table ->
  calendar_months month_of (filter p table).
Proof.
  intros H. rewrite Forall_forall in H. apply Forall_forall.
  intros rec Hin. apply filter_In in Hin as [Hin Hp]. now apply H.
Qed.

(** X11. When every identifier that passes the year filter of an era
    carries, where that era reads the month, the two digits of a month
    01..12, the yearly counts are returned, with twelve months whose new and
    cross values add up to the totals. *)
Theorem calendar_identifiers_give_counts (table : list Metadata.t)
    (archive : string) (year : Z) :
  (2007 <= year ->
   Forall (fun rec =>
             startswith (Metadata.paper_id rec) (format_02d (year mod 100))
             = true ->
             exists m, 1 <= m <= 12
                       /\ substr (Metadata.paper_id rec) 3 2 = format_02d m)
          table) ->
  (year <= 2007 ->
   Forall (fun rec =>
             like ("%/" ++ format_02d (year mod 100) ++ "%")
                  (Metadata.paper_id rec) = true ->
             exists m, 1 <= m <= 12
                       /\ substr (substring_index_last
                                    (Metadata.paper_id rec) "/") 3 2
                          = format_02d m)
          table) ->
  exists yc,
    get_yearly_article_counts table archive year = Ok yc
    /\ List.length (YearCount.by_month yc) = 12%nat
    /\ sum_new (YearCount.by_month yc) = YearCount.new_count yc
    /\ sum_cross (YearCount.by_month yc) = YearCount.cross_count yc.
Proof.
  intros Hnew Hold.
  set (a := canonical_archive archive).
  assert (2007 <= year -> months_ok (count_query_new_id a year table)) as Mn.
  { intros Hy. unfold count_query_new_id.
    apply group_counts_months_ok, calendar_months_filter, Hnew, Hy. }
  assert (year <= 2007 -> months_ok (count_query_old_id a year table)) as Mo.
  { intros Hy. unfold count_query_old_id.
    apply group_counts_months_ok, calendar_months_filter, Hold, Hy. }
  unfold get_yearly_article_counts. fold a.
  destruct (Z.gtb_spec year 2007) as [Hgt|Hle].
  - apply process_conserves, Mn. lia.
  - destruct (Z.eqb_spec year 2007) as [Heq|Hne];
      [|apply process_conserves, Mo; lia].
    unfold _get_yearly_article_counts_old_id,
      _get_yearly_article_counts_new_id.
    destruct (process_conserves _ year (Mo ltac:(lia)))
      as (yo & Eo & Hlo & Hno & Hco).
    destruct (process_conserves _ year (Mn ltac:(lia)))
      as (yn & En & Hln & Hnn & Hcn).
    rewrite Eo, En. cbn [bind].
    destruct (combine_loop_twelve yn yo)
      as (months & E & Hlen & _ & Hsn & Hsc); try lia.
    unfold _combine_yearly_article_counts. rewrite E. cbn [bind].
    eexists. split; [reflexivity|]. simpl.
    rewrite !firstn_all2 in Hsn, Hsc by lia.
    split; [exact Hlen|]. lia.
Qed.

Lemma sample_table_new_ids :
  Forall (fun rec =>
            startswith (Metadata.paper_id rec) (format_02d (2007 mod 100))
            = true ->
            exists m, 1 <= m <= 12
                      /\ substr (Metadata.paper_id rec) 3 2 = format_02d m)
         sample_table.
Proof.
  repeat (apply Forall_cons;
          [first [ intros _; exists 4; split; [lia | reflexivity]
                 | intros _; exists 12; split; [lia | reflexivity]
                 | intros H; vm_compute in H; discriminate H ]|]).
  apply Forall_nil.
Qed.

Lemma sample_table_old_ids :
  Forall (fun rec =>
            like ("%/" ++ format_02d (2007 mod 100) ++ "%")
                 (Metadata.paper_id rec) = true ->
            exists m, 1 <= m <= 12
                      /\ substr (substring_index_last
                                   (Metadata.paper_id rec) "/") 3 2
                         = format_02d m)
         sample_table.
Proof.
  repeat (apply Forall_cons;
          [first [ intros _; exists 1; split; [lia | reflexivity]
                 | intros _; exists 3; split; [lia | reflexivity]
                 | intros H; vm_compute in H; discriminate H ]|]).
  apply Forall_nil.
Qed.

Lemma calendar_identifiers_give_counts_witness :
  exists yc,
    get_yearly_article_counts sample_table "math" 2007 = Ok yc
    /\ List.length (YearCount.by_month yc) = 12%nat
    /\ sum_new (YearCount.by_month yc) = YearCount.new_count yc
    /\ sum_cross (YearCount.by_month yc) = YearCount.cross_count yc.
Proof.
  apply (calendar_identifiers_give_counts sample_table "math" 2007).
  - intros _. exact sample_table_new_ids.
  - intros _. exact sample_table_old_ids.
Defined.

(** ** The classification of a record *)

Fixpoint lower (s : string) : string :=
  match s with
  | EmptyString => EmptyString
  | String c s' => String (fold_case c) (lower s')
  end.

(** A plain token: no wildcard of [LIKE] and no backslash. *)
Fixpoint plain (p : string) : bool :=
  match p with
  | EmptyString => true
  | String c p' =>
      negb (c =? "%")%char && negb (c =? "_")%char && negb (c =? "\")%char
      && plain p'
  end.

Fixpoint ascii_only (s : string) : bool :=
  match s with
  | EmptyString => true
  | String c s' => (nat_of_ascii c <? 128)%nat && ascii_only s'
  end.

(** A plain token followed by [%] matches the strings that start with the
    token up to the case of letters. *)
Lemma like_caseless_prefix (lit s : string) :
  plain lit = true ->
  like (lit ++ "%") s = true
  <-> exists pre rest, s = pre ++ rest /\ lower pre = lower lit.
Proof.
  revert s. induction lit as [|c lit IH]; intros s Hlit.
  - simpl append. rewrite like_percent. split; [|reflexivity].
    intros _. now exists "", s.
  - cbn [plain] in Hlit. apply andb_prop in Hlit as [Hc Hlit].
    apply andb_prop in Hc as [Hc _]. apply andb_prop in Hc as [Hp Hu].
    apply negb_true_iff in Hp, Hu.
    change (String c lit ++ "%") with (String c (lit ++ "%")).
    cbn [like]. rewrite Hp, Hu. cbn [orb].
    destruct s as [|d s].
    + split; [discriminate|].
      intros [pre [rest [E H]]]. destruct pre; discriminate.
    + rewrite andb_true_iff, Ascii.eqb_eq, (IH s Hlit). split.
      * intros [Hcd [pre [rest [-> Hl]]]].
        exists (String d pre), rest. split; [reflexivity|].
        simpl. now rewrite Hl, Hcd.
      * intros [pre [rest [E Hl]]]. destruct pre as [|x pre]; [discriminate|].
        simpl in E, Hl. injection E as -> ->. injection Hl as Hx Hl.
        split; [now rewrite Hx | now exists pre, rest].
Qed.

(** A plain token between two [%] matches the strings that hold the token
    up to the case of letters. *)
Lemma like_caseless_infix (lit s : string) :
  plain lit = true ->
  like ("%" ++ lit ++ "%") s = true
  <-> exists before mid rest,
        s = before ++ mid ++ rest /\ lower mid = lower lit.
Proof.
  intros Hlit. change ("%" ++ lit ++ "%") with (String "%" (lit ++ "%")).
  induction s as [|d s IH].
  - rewrite like_any, orb_false_r, (like_caseless_prefix lit _ Hlit). split.
    + intros [pre [rest [E H]]]. now exists "", pre, rest.
    + intros [a [mid [b [E H]]]]. destruct a; [|discriminate].
      now exists mid, b.
  - rewrite like_any, orb_true_iff, (like_caseless_prefix lit _ Hlit), IH.
    split.
    + intros [[pre [rest [E H]]] | [a [mid [b [E H]]]]].
      * now exists "", pre, rest.
      * exists (String d a), mid, b. simpl. now rewrite E.
    + intros [a [mid [b [E H]]]]. destruct a as [|x a].
      * left. now exists mid, b.
      * right. simpl in E. injection E as _ ->. now exists a, mid, b.
Qed.

(** X12. For an archive token of ASCII characters without [%], [_] and
    backslash, and an ASCII category string, a record is [new] exactly when
    its category string starts with the token, [cross] exactly when it does
    not but holds the token after a space, and [no_match] otherwise, the
    case of letters never counting. *)
Theorem classification_rule (archive : string) (rec : Metadata.t) :
  plain archive = true -> ascii_only archive = true ->
  ascii_only (Metadata.abs_categories rec) = true ->
  let cats := Metadata.abs_categories rec in
  let starts :=
    exists pre rest, cats = pre ++ rest /\ lower pre = lower archive in
  let holds :=
    exists before mid rest,
      cats = before ++ mid ++ rest /\ lower mid = lower (" " ++ archive) in
  (categorization_case archive rec = "new" <-> starts)
  /\ (categorization_case archive rec = "cross" <-> ~ starts /\ holds)
  /\ (categorization_case archive rec = "no_match" <-> ~ starts /\ ~ holds).
Proof.
  intros Hlit _ _ cats starts holds. unfold categorization_case.
  pose proof (like_caseless_prefix archive cats Hlit) as Hp.
  assert (plain (" " ++ archive) = true) as Hlit' by exact Hlit.
  pose proof (like_caseless_infix (" " ++ archive) cats Hlit') as Hi.
  fold cats. unfold startswith, contains.
  fold starts in Hp. fold holds in Hi.
  destruct (like (archive ++ "%") cats).
  - assert starts by now apply Hp.
    repeat split; try tauto; try discriminate.
  - assert (~ starts) by (intros Hs; apply Hp in Hs; discriminate).
    destruct (like ("%" ++ (" " ++ archive) ++ "%") cats).
    + assert holds by now apply Hi.
      repeat split; try tauto; try discriminate.
    + assert (~ holds) by (intros Hs; apply Hi in Hs; discriminate).
      repeat split; try tauto; try discriminate.
Qed.

Lemma classification_rule_witness :
  plain "CS" = true /\ ascii_only "CS" = true
  /\ ascii_only "hep-th cs.AI" = true
  /\ (categorization_case "CS"
        (sample_record 3 "hep-th/0703003" "hep-th cs.AI" 1) = "cross"
      <-> ~ (exists pre rest,
                "hep-th cs.AI" = pre ++ rest /\ lower pre = lower "CS")
          /\ exists before mid rest,
               "hep-th cs.AI" = before ++ mid ++ rest
               /\ lower mid = lower (" " ++ "CS")).
Proof.
  split; [reflexivity|]. split; [reflexivity|]. split; [reflexivity|].
  apply (classification_rule "CS"
           (sample_record 3 "hep-th/0703003" "hep-th cs.AI" 1));
    reflexivity.
Defined.

(** The case of letters does not count: the token [CS] counts [cs.AI]. *)
Lemma classification_examples :
  categorization_case "CS" (sample_record 1 "0903.0001" "cs.AI" 1) = "new"
  /\ categorization_case "cs" (sample_record 1 "0903.0001" "math.CO CS.ai" 1)
     = "cross"
  /\ categorization_case "math." (sample_record 1 "0903.0001" "math-ph" 1)
     = "no_match".
Proof. repeat split. Qed.

(** ** Several versions of a paper *)

Lemma nodup_cons_In {A : Type} (dec : forall x y : A, {x = y} + {x <> y})
    (x : A) (l : list A) :
  In x l -> nodup dec (x :: l) = nodup dec l.
Proof.
  intros H. simpl. destruct (in_dec dec x l); [reflexivity | contradiction].
Qed.

Lemma count_distinct_version archive label group rec rec' :
  In rec group ->
  Metadata.paper_id rec' = Metadata.paper_id rec ->
  categorization_case archive rec' = categorization_case archive rec ->
  count_distinct archive label (rec' :: group)
  = count_distinct archive label group.
Proof.
  intros Hin Hid Hcase. unfold count_distinct. simpl.
  destruct (categorization_case archive rec' =? label)%string eqn:E;
    [|reflexivity].
  simpl map. rewrite nodup_cons_In; [reflexivity|].
  rewrite Hid. apply in_map, filter_In. split; [exact Hin|].
  now rewrite <- Hcase.
Qed.

Lemma group_counts_version archive month_of rows rec rec' :
  In rec rows ->
  month_of rec' = month_of rec ->
  Metadata.paper_id rec' = Metadata.paper_id rec ->
  categorization_case archive rec' = categorization_case archive rec ->
  group_counts archive month_of (rec' :: rows)
  = group_counts archive month_of rows.
Proof.
  intros Hin Hmonth Hid Hcase. unfold group_counts.
  simpl map at 2. rewrite nodup_cons_In by (rewrite Hmonth; now apply in_map).
  apply map_ext. intros k. simpl filter.
  destruct (month_of rec' =? k)%string eqn:E; [|reflexivity].
  assert (In rec (filter (fun m => (month_of m =? k)%string) rows)) as Hg
    by (apply filter_In; split; [exact Hin | now rewrite <- Hmonth]).
  now rewrite !(count_distinct_version archive _ _ rec rec' Hg Hid Hcase).
Qed.

(** X13. A paper is counted once in a class however many of its records
    carry that class: a further record with the identifier and the class of
    a record of the table changes no yearly count. *)
Theorem further_version_counts_once (table : list Metadata.t)
    (archive : string) (year : Z) (rec rec' : Metadata.t) :
  In rec table ->
  Metadata.paper_id rec' = Metadata.paper_id rec ->
  categorization_case (canonical_archive archive) rec'
  = categorization_case (canonical_archive archive) rec ->
  get_yearly_article_counts (rec' :: table) archive year
  = get_yearly_article_counts table archive year.
Proof.
  intros Hin Hid Hcase.
  assert (forall a (p : string -> bool) (month_of : string -> string),
             categorization_case a rec' = categorization_case a rec ->
             group_counts a (fun m => month_of (Metadata.paper_id m))
               (filter (fun m => p (Metadata.paper_id m)) (rec' :: table))
             = group_counts a (fun m => month_of (Metadata.paper_id m))
                 (filter (fun m => p (Metadata.paper_id m)) table)) as Hq.
  { intros a p month_of Hc. simpl filter. rewrite Hid.
    destruct (p (Metadata.paper_id rec)) eqn:Ep; [|reflexivity].
    apply (group_counts_version a _ _ rec rec'); auto.
    - apply filter_In. auto.
    - now rewrite Hid. }
  unfold get_yearly_article_counts, _get_yearly_article_counts_new_id,
    _get_yearly_article_counts_old_id, count_query_new_id,
    count_query_old_id.
  rewrite (Hq _ (fun pid => startswith pid (format_02d (year mod 100)))
              (fun pid => substr pid 3 2) Hcase).
  rewrite (Hq _ (fun pid => like ("%/" ++ format_02d (year mod 100) ++ "%")
                                 pid)
              (fun pid => substr (substring_index_last pid "/") 3 2) Hcase).
  reflexivity.
Qed.

Lemma further_version_counts_once_witness :
  get_yearly_article_counts
    (Metadata.mk 4 "0704.0001" 2 "t2" "a2" "abs2" "math.AG math.CO" "" "" 3
                 "" 1 :: sample_table) "math" 2007
  = get_yearly_article_counts sample_table "math" 2007.
Proof.
  apply (further_version_counts_once sample_table "math" 2007
           (sample_record 4 "0704.0001" "math.AG" 1)).
  - simpl. auto 10.
  - reflexivity.
  - reflexivity.
Defined.

(** ** Outcome of the listing query *)

Definition valid_date (year : Z) (month : option Z) : Prop :=
  1 <= year <= 9999 /\ 1 <= display_month month <= 12.

(** The year and the month fit C ints. *)
Definition c_int_date (year : Z) (month : option Z) : Prop :=
  - 2147483648 <= year <= 2147483647
  /\ - 2147483648 <= display_month month <= 2147483647.

Lemma fits_c_int_iff (n : Z) :
  fits_c_int n = true <-> - 2147483648 <= n <= 2147483647.
Proof.
  unfold fits_c_int. rewrite andb_true_iff, !Z.leb_le. tauto.
Qed.

Lemma datetime_cases (year : Z) (month : option Z) :
  (valid_date year month
   /\ datetime year (display_month month) 1
      = Ok (mk_datetime year (display_month month) 1))
  \/ (c_int_date year month /\ ~ valid_date year month
      /\ datetime year (display_month month) 1 = Raise ValueError)
  \/ (~ c_int_date year month
      /\ datetime year (display_month month) 1 = Raise OverflowError).
Proof.
  unfold datetime, valid_date, c_int_date.
  change (fits_c_int 1) with true. rewrite andb_true_r.
  destruct (fits_c_int year && fits_c_int (display_month month)) eqn:F;
    simpl negb; cbv iota.
  - apply andb_prop in F as [Fy Fm]. apply fits_c_int_iff in Fy, Fm.
    destruct ((1 <=? year) && (year <=? 9999)
              && (1 <=? display_month month)
              && (display_month month <=? 12)) eqn:E.
    + left. rewrite !andb_true_iff, !Z.leb_le in E.
      split; [lia | reflexivity].
    + right. left. split; [tauto|]. split; [|reflexivity]. intros H.
      assert ((1 <=? year) && (year <=? 9999)
              && (1 <=? display_month month)
              && (display_month month <=? 12) = true) as E'
        by (rewrite !andb_true_iff, !Z.leb_le; lia).
      congruence.
  - right. right. split; [|reflexivity]. intros [Hy Hm].
    apply fits_c_int_iff in Hy, Hm. rewrite Hy, Hm in F. discriminate.
Qed.

(** X14. The listing query returns exactly when the token resolves, every
    row of the page has a category token and the year and month make a
    date (year 1..9999, month 1..12 or none).  When the token and the page
    pass and the date fails, it raises [OverflowError] if the year or the
    month does not fit a C int, and [ValueError] otherwise. *)
Theorem listing_outcome tx le db gen_expires a year month skip show :
  let page_ok :=
    exists cats,
      _all_possible_categories tx a = Ok cats
      /\ Forall (fun entry => ~ tokenless entry)
                (page_rows le db year month skip show cats) in
  ((exists listing,
       get_articles_for_month tx le db gen_expires a year month skip show
       = Ok listing)
   <-> page_ok /\ valid_date year month)
  /\ (get_articles_for_month tx le db gen_expires a year month skip show
      = Raise ValueError
      <-> page_ok /\ c_int_date year month /\ ~ valid_date year month)
  /\ (get_articles_for_month tx le db gen_expires a year month skip show
      = Raise OverflowError
      <-> page_ok /\ ~ c_int_date year month).
Proof.
  intros page_ok. unfold page_ok. rewrite get_articles_for_month_unfold.
  assert (valid_date year month -> c_int_date year month) as Hvc
    by (unfold valid_date, c_int_date; lia).
  destruct (resolution_cases tx a) as [[_ [cats E]] | [_ E]]; rewrite E;
    cbn [bind].
  - destruct (entries_cases (page_rows le db year month skip show cats))
      as [[Hex E'] | [Hall [lists E']]]; rewrite E'; cbn [bind].
    + assert (forall cats',
                 Ok cats = Ok cats' ->
                 Forall (fun entry => ~ tokenless entry)
                        (page_rows le db year month skip show cats') ->
                 False) as Hno.
      { intros cats' [= <-] Hall.
        exact (Exists_not_Forall_not _ _ Hex Hall). }
      split; [|split]; split; try discriminate.
      * intros [l H]. discriminate.
      * intros [[cats' [Hc Hall]] _]. destruct (Hno cats' Hc Hall).
      * intros [[cats' [Hc Hall]] _]. destruct (Hno cats' Hc Hall).
      * intros [[cats' [Hc Hall]] _]. destruct (Hno cats' Hc Hall).
    + assert (exists cats',
                 Ok cats = Ok cats'
                 /\ Forall (fun entry => ~ tokenless entry)
                           (page_rows le db year month skip show cats'))
        as Hpage by eauto.
      destruct (datetime_cases year month)
        as [[Hv Ed] | [[Hc [Hv Ed]] | [Hc Ed]]]; rewrite Ed; cbn [bind].
      * split; [|split]; split; try discriminate; try tauto; eauto.
      * split; [|split]; split; try discriminate; try tauto.
        intros [l H]. discriminate.
      * split; [|split]; split; try discriminate; try tauto.
        intros [l H]. discriminate.
  - split; [|split]; split; try discriminate.
    + intros [l H]. discriminate.
    + intros [[cats [H _]] _]. discriminate.
    + intros [[cats [H _]] _]. discriminate.
    + intros [[cats [H _]] _]. discriminate.
Qed.

(** A thirteenth month passes the queries and fails at the date; a year of
    2^31 fails at the conversion. *)
Lemma month_thirteen_raises :
  get_articles_for_month sample_taxonomy String.leb sample_store "expires"
                         "cs" 2009 (Some 13) 0 10 = Raise ValueError
  /\ get_articles_for_month sample_taxonomy String.leb sample_store
       "expires" "cs" 2147483648 (Some 3) 0 10 = Raise OverflowError.
Proof. split; reflexivity. Qed.
